(** * Chunked audio transcription: a model of [long_audio_transcriber.py]

    The development embeds class [ChunkedAudioTranscriber] of
    [src/long_audio_transcriber.py]: [split_audio], [transcribe_chunk],
    [merge_transcriptions] and [transcribe_long_audio], and the function
    [save_transcript_with_metadata] of the same file.

    - Python [str] values are [string]s; the only characters the code
      inspects are line breaks and white space.
    - A result dictionary is a record; a key that some return statements
      leave out is an [option] field ([dict.get(key, default)] reads it with
      [default]).
    - Clock readings ([time.time()], a float) live in an abstract type
      [time] with the two operations the code applies to them, so nothing
      below depends on how the additions round.
    - The collaborators (the remote service, the audio library, the
      operating system) are an environment record whose answers may depend
      on everything that happened before; their calls are logged in a
      trace.
    - The console is a collaborator too: [print] raises when the console
      refuses a text (an encoding without the character, a closed pipe).
      The model has the [print] calls that stand outside every [try]
      statement of [transcribe_chunk] and [transcribe_long_audio], where an
      exception leaves the function; the progress messages printed
      elsewhere are left out. A printed text is a [string] of the bytes of
      its UTF-8 encoding. *)

From Stdlib Require Import ZArith List String Ascii Bool Lia Permutation Sorted.
From stdpp Require Import base decidable option list strings gmap pretty.

Local Open Scope string_scope.

Set Warnings "-clear-no-such-hyp".

(** ** Python string operations used by the transcriber *)

Module PyStr.

(** The line break character. *)
Definition nl : string := String "010"%char "".

(** ['\n\n'] and ['\n\n\n']. *)
Definition nl2 : string := nl ++ nl.
Definition nl3 : string := nl ++ nl ++ nl.

(** [sep.join(parts)]. *)
Definition join (sep : string) (parts : list string) : string :=
  String.concat sep parts.

(** [s.replace(old, new)] for a non-empty [old]: one pass from the left,
    occurrences do not overlap and the text produced by a replacement is
    not scanned again. [skip] counts the characters of a matched
    occurrence that are still to be dropped. *)
Fixpoint replace_from (old new : string) (skip : nat) (s : string) : string :=
  match s with
  | EmptyString => EmptyString
  | String c s' =>
      match skip with
      | S k => replace_from old new k s'
      | O =>
          if String.prefix old s
          then new ++ replace_from old new (String.length old - 1) s'
          else String c (replace_from old new 0 s')
      end
  end.

Definition replace (old new s : string) : string := replace_from old new 0 s.

(** [pat in s]. *)
Fixpoint contains (pat s : string) : bool :=
  String.prefix pat s ||
  match s with
  | EmptyString => false
  | String _ s' => contains pat s'
  end.

(** [str.isspace] on one character (code points below 256). *)
Definition is_space (c : ascii) : bool :=
  let n := nat_of_ascii c in
  ((9 <=? n)%nat && (n <=? 13)%nat) || ((28 <=? n)%nat && (n <=? 32)%nat)
  || (n =? 133)%nat || (n =? 160)%nat.

Fixpoint lstrip (s : string) : string :=
  match s with
  | EmptyString => EmptyString
  | String c s' => if is_space c then lstrip s' else s
  end.

(** [s.rstrip()]: a character is kept when it is not white space or
    when something is kept after it. *)
Fixpoint rstrip (s : string) : string :=
  match s with
  | EmptyString => EmptyString
  | String c s' =>
      match rstrip s' with
      | EmptyString => if is_space c then EmptyString else String c EmptyString
      | r => String c r
      end
  end.

(** [s.strip()]. *)
Definition strip (s : string) : string := rstrip (lstrip s).

(** [len(s.split())]: the number of maximal runs of characters that are
    not white space. [in_word] tells whether the previous character was
    part of a word. *)
Fixpoint count_words (in_word : bool) (s : string) : nat :=
  match s with
  | EmptyString => 0
  | String c s' =>
      if is_space c then count_words false s'
      else (if in_word then 0 else 1) + count_words true s'
  end.

Definition split_len (s : string) : nat := count_words false s.

(** [f"{n:03d}"] for a natural number. *)
Definition pad3 (n : nat) : string :=
  let digits := pretty n in
  String.concat "" (replicate (3 - String.length digits) "0") ++ digits.

End PyStr.

(** ** Numbers of seconds

    [time.time()] returns a float; the code subtracts two readings and adds
    up the differences, starting from the integer [0]. *)

Class Clock (time : Type) := {
  tzero : time;
  tadd : time -> time -> time;
  tsub : time -> time -> time
}.

(** ** Effects: exceptions, the trace of calls and the local files *)

(** An exception that [except Exception] catches; [str(e)] is its message. *)
Record exn := Exn { exn_msg : string }.

(** The calls the transcriber makes to its collaborators. *)
Inductive event :=
| EvTime
| EvSleep (seconds : nat)
| EvUploadFile (path : string)
| EvGetFile (file : string)
| EvGenerateContent (file : string)
| EvDeleteFile (file : string)
| EvFromFile (path : string)
| EvMkdtemp
| EvExport (path : string) (start_ms end_ms : Z)
| EvRemove (path : string)
| EvRmdir (path : string).

(** What a run can see and change: the calls made so far, and the paths of
    the local files and directories. *)
Record World := {
  trace : list event;
  files : gset string;
  dirs : gset string
}.

Definition log_event (e : event) (w : World) : World :=
  {| trace := (trace w ++ [e])%list; files := files w; dirs := dirs w |}.

(** The outcome of running a piece of code: it returns, it raises, or the
    loop of the model has used up its fuel (the code is still running). *)
Inductive res (A : Type) :=
| Ret (a : A) (w : World)
| Raise (e : exn) (w : World)
| OutOfFuel.

Arguments Ret {A} a w.
Arguments Raise {A} e w.
Arguments OutOfFuel {A}.

Definition M (A : Type) : Type := World -> res A.

#[global] Instance M_ret : MRet M := fun A a w => Ret a w.

#[global] Instance M_bind : MBind M := fun A B f m w =>
  match m w with
  | Ret a w' => f a w'
  | Raise e w' => Raise e w'
  | OutOfFuel => OutOfFuel
  end.

Definition raise {A} (e : exn) : M A := fun w => Raise e w.

(** [try: body except Exception as e: handler(e)]. What the body did
    before it raised stays done. *)
Definition try_except {A} (body : M A) (handler : exn -> M A) : M A :=
  fun w =>
    match body w with
    | Raise e w' => handler e w'
    | r => r
    end.

(** A call to a collaborator: it is logged, and its answer, an exception
    or a value, may depend on all earlier calls. *)
Definition call {A} (e : event) (answer : list event -> exn + A) : M A :=
  fun w =>
    match answer (trace w) with
    | inl x => Raise x (log_event e w)
    | inr a => Ret a (log_event e w)
    end.

(** [time.sleep(seconds)]. *)
Definition time_sleep (seconds : nat) : M unit :=
  fun w => Ret tt (log_event (EvSleep seconds) w).

(** [os.path.exists(path)]. *)
Definition os_path_exists (path : string) : M bool :=
  fun w => Ret (bool_decide (path ∈ files w ∪ dirs w)) w.

(** ** Durations as text *)

(** [f"{n:02d}"] for a number of minutes or seconds. *)
Definition pad2 (n : Z) : string :=
  let digits := pretty n in
  String.concat "" (replicate (2 - String.length digits) "0") ++ digits.

(** [str(timedelta(milliseconds=ms)).split('.')[0]]: days, when there are
    any, then hours, minutes and seconds; the fraction of a second is cut
    off. The constructor raises for more than 999999999 days. *)
Definition timedelta_text (ms : Z) : exn + string :=
  let days := (ms / 86400000)%Z in
  let seconds := ((ms mod 86400000) / 1000)%Z in
  if (999999999 <? Z.abs days)%Z
  then inl (Exn "days; must have magnitude <= 999999999")
  else
    inr ((if (days =? 0)%Z then ""
          else pretty days ++ " day"
               ++ (if (Z.abs days =? 1)%Z then "" else "s") ++ ", ")
         ++ pretty (seconds / 3600)%Z ++ ":"
         ++ pad2 ((seconds mod 3600) / 60)%Z ++ ":"
         ++ pad2 (seconds mod 60)%Z).

(** ** The data model *)

Section Model.

Context {time : Type} `{Clock time}.

(** The dictionary returned by [transcribe_chunk]. The keys
    ['processing_time'] and ['word_count'] are missing from some of its
    return statements. *)
Record ChunkResult := {
  success : bool;
  error : option string;
  transcript : string;
  start_time : Z;
  end_time : Z;
  processing_time : option time;
  word_count : option nat
}.

(** The dictionary returned by [merge_transcriptions] and by
    [transcribe_long_audio]. Only ['success'], ['error'] and ['transcript']
    are present in every return statement. *)
Record Report := {
  report_success : bool;
  report_error : option string;
  report_transcript : string;
  total_chunks : option nat;
  successful_chunks : option nat;
  failed_chunks : option nat;
  total_words : option nat;
  total_processing_time : option time;
  chunk_results : option (list ChunkResult)
}.

(** ** [merge_transcriptions] *)

(** The three accumulators of the loop over the successful chunks:
    [full_transcript_parts], [total_words], [total_processing_time]. *)
Definition merge_step (acc : list string * nat * time) (result : ChunkResult)
  : list string * nat * time :=
  let '(full_transcript_parts, words, ptime) := acc in
  ((full_transcript_parts ++ [transcript result])%list,
   words + default 0 (word_count result),
   tadd ptime (default tzero (processing_time result))).

Definition merge_transcriptions (results : list ChunkResult) : Report :=
  let successful := List.filter success results in
  let failed := List.filter (fun r => negb (success r)) results in
  match successful with
  | [] =>
      {| report_success := false;
         report_error := Some "All chunks failed to transcribe";
         report_transcript := "";
         total_chunks := None;
         successful_chunks := None;
         failed_chunks := None;
         total_words := None;
         total_processing_time := None;
         chunk_results := Some results |}
  | _ :: _ =>
      let '(full_transcript_parts, words, ptime) :=
        fold_left merge_step successful ([], 0, tzero) in
      let full_transcript := PyStr.join PyStr.nl2 full_transcript_parts in
      let full_transcript := PyStr.replace PyStr.nl3 PyStr.nl2 full_transcript in
      {| report_success := true;
         report_error := None;
         report_transcript := full_transcript;
         total_chunks := Some (length results);
         successful_chunks := Some (length successful);
         failed_chunks := Some (length failed);
         total_words := Some words;
         total_processing_time := Some ptime;
         chunk_results := Some results |}
  end.

(** ** The collaborators *)

(** A file handle of the remote service: [audio_file.name] and
    [audio_file.state.name]. *)
Record RemoteFile := {
  name : string;
  state_name : string
}.

(** The answer of [generate_content]; reading [response.text] raises when
    the service returned no text part. *)
Record Response := {
  text : exn + string
}.

(** A chunk: [(chunk_path, start_ms, end_ms)]. *)
Definition Chunk : Type := string * Z * Z.

(** The remote service ([genai]), the clock, the audio library ([pydub]),
    [tempfile], [os], [os.path] and the console. Every answer is a function
    of the calls made before. [remove] and [rmdir] tell whether the
    operating system lets the call through or refuses it (a permission, a
    file in use); [getsize] is the size in bytes of a file that is there,
    unless the operating system refuses; [console] tells whether the
    console takes a text or raises; [format_mb size] is the text of
    [size / 1024 / 1024] in the format [.2f]. *)
Record Env := {
  upload_file : list event -> string -> exn + RemoteFile;
  get_file : list event -> string -> exn + RemoteFile;
  generate_content : list event -> string -> RemoteFile -> exn + Response;
  delete_file : list event -> string -> exn + unit;
  clock : list event -> time;
  from_file : list event -> string -> exn + Z;
  export : list event -> string -> Z -> Z -> exn + unit;
  mkdtemp : list event -> exn + string;
  remove : list event -> string -> exn + unit;
  rmdir : list event -> string -> exn + unit;
  getsize : list event -> string -> exn + Z;
  console : list event -> string -> exn + unit;
  format_mb : Z -> string;
  path_join : string -> string -> string;
  dirname : string -> string
}.

(** The object [self]: the attributes set by [__init__] that the methods
    read. *)
Record Transcriber := {
  chunk_duration_minutes : Z;
  chunk_duration_ms : Z
}.

(** [__init__], given the value of [os.getenv('GOOGLE_API_KEY')]. *)
Definition init (google_key : option string) (minutes : Z) : exn + Transcriber :=
  match google_key with
  | Some (String _ _) =>
      inr {| chunk_duration_minutes := minutes;
             chunk_duration_ms := minutes * 60 * 1000 |}
  | _ => inl (Exn "GOOGLE_API_KEY not found in .env file")
  end.

Context (env : Env) (self : Transcriber).

(** [time.time()]. *)
Definition time_time : M time :=
  fun w => Ret (clock env (trace w)) (log_event EvTime w).

Definition genai_upload_file (path : string) : M RemoteFile :=
  call (EvUploadFile path) (fun h => upload_file env h path).

Definition genai_get_file (file : string) : M RemoteFile :=
  call (EvGetFile file) (fun h => get_file env h file).

Definition model_generate_content (prompt : string) (audio_file : RemoteFile)
  : M Response :=
  call (EvGenerateContent (name audio_file))
       (fun h => generate_content env h prompt audio_file).

Definition genai_delete_file (file : string) : M unit :=
  call (EvDeleteFile file) (fun h => delete_file env h file).

(** [response.text]. *)
Definition response_text (response : Response) : M string :=
  match text response with
  | inl e => raise e
  | inr t => mret t
  end.

(** [AudioSegment.from_file(path)] followed by [len(audio)]: only the
    duration of the decoded audio is used. *)
Definition audio_from_file (path : string) : M Z :=
  call (EvFromFile path) (fun h => from_file env h path).

(** [audio[start:end].export(path, format="mp3")]: writes the file. *)
Definition audio_export (path : string) (start_ms end_ms : Z) : M unit :=
  fun w =>
    match call (EvExport path start_ms end_ms)
               (fun h => export env h path start_ms end_ms) w with
    | Ret _ w' =>
        Ret tt {| trace := trace w'; files := files w' ∪ {[path]}; dirs := dirs w' |}
    | r => r
    end.

(** [tempfile.mkdtemp()]: creates the directory it returns. *)
Definition tempfile_mkdtemp : M string :=
  fun w =>
    match call EvMkdtemp (mkdtemp env) w with
    | Ret d w' =>
        Ret d {| trace := trace w'; files := files w'; dirs := dirs w' ∪ {[d]} |}
    | r => r
    end.

(** [os.listdir(path)]: the entries directly under a directory. *)
Definition os_listdir (path : string) : M (gset string) :=
  fun w =>
    if decide (path ∈ dirs w)
    then Ret (filter (fun p => dirname env p = path) (files w ∪ dirs w)) w
    else Raise (Exn ("[Errno 20] Not a directory: " ++ path)) w.

(** [os.remove(path)]: removes a file; raises when there is none or when
    the operating system refuses. *)
Definition os_remove (path : string) : M unit :=
  fun w =>
    let w' := log_event (EvRemove path) w in
    match remove env (trace w) path with
    | inl e => Raise e w'
    | inr _ =>
        if decide (path ∈ files w)
        then Ret tt {| trace := trace w';
                       files := files w ∖ {[path]};
                       dirs := dirs w |}
        else Raise (Exn ("[Errno 2] No such file or directory: " ++ path)) w'
    end.

(** [os.rmdir(path)]: removes an empty directory; raises otherwise, or
    when the operating system refuses. *)
Definition os_rmdir (path : string) : M unit :=
  fun w =>
    let w' := log_event (EvRmdir path) w in
    match rmdir env (trace w) path with
    | inl e => Raise e w'
    | inr _ =>
        if decide (path ∈ dirs w
                   ∧ filter (fun p => dirname env p = path) (files w ∪ dirs w) = ∅)
        then Ret tt {| trace := trace w';
                       files := files w;
                       dirs := dirs w ∖ {[path]} |}
        else Raise (Exn ("[Errno 39] Directory not empty: " ++ path)) w'
    end.

(** [os.path.getsize(path)]: raises when there is no such file or when the
    operating system refuses. *)
Definition os_path_getsize (path : string) : M Z :=
  fun w =>
    if decide (path ∈ files w ∪ dirs w)
    then match getsize env (trace w) path with
         | inl e => Raise e w
         | inr size => Ret size w
         end
    else Raise (Exn ("[Errno 2] No such file or directory: " ++ path)) w.

(** [print(text)]: raises when the console refuses the text. *)
Definition print (text : string) : M unit :=
  fun w =>
    match console env (trace w) text with
    | inl e => Raise e w
    | inr _ => Ret tt w
    end.

(** [str(timedelta(milliseconds=ms)).split('.')[0]]. *)
Definition timedelta_str (ms : Z) : M string :=
  match timedelta_text ms with
  | inl e => raise e
  | inr s => mret s
  end.

(** ** [split_audio] *)

(** [f"chunk_{chunk_number:03d}.mp3"]. *)
Definition chunk_file_name (chunk_number : nat) : string :=
  "chunk_" ++ PyStr.pad3 chunk_number ++ ".mp3".

(** The [while chunk_start < total_duration_ms] loop. *)
Fixpoint split_loop (fuel : nat) (temp_dir : string) (total_duration_ms : Z)
    (chunk_start : Z) (chunk_number : nat) (chunks : list Chunk)
  : M (list Chunk) :=
  if (chunk_start <? total_duration_ms)%Z then
    match fuel with
    | O => fun _ => OutOfFuel
    | S fuel' =>
        let chunk_end :=
          Z.min (chunk_start + chunk_duration_ms self) total_duration_ms in
        let chunk_filename :=
          path_join env temp_dir (chunk_file_name chunk_number) in
        audio_export chunk_filename chunk_start chunk_end;;
        split_loop fuel' temp_dir total_duration_ms chunk_end
                   (chunk_number + 1)
                   (chunks ++ [(chunk_filename, chunk_start, chunk_end)])%list
    end
  else mret chunks.

Definition split_audio (fuel : nat) (audio_file_path : string) : M (list Chunk) :=
  total_duration_ms ← audio_from_file audio_file_path;
  if (total_duration_ms <=? chunk_duration_ms self)%Z
  then mret [(audio_file_path, 0%Z, total_duration_ms)]
  else
    temp_dir ← tempfile_mkdtemp;
    split_loop fuel temp_dir total_duration_ms 0 1 [].

(** ** [transcribe_chunk] *)

(** The instruction sent with the chunk. *)
Definition chunk_prompt (chunk_index total_chunks : nat) : string :=
  "Please transcribe this audio chunk accurately. This is part "
  ++ pretty (chunk_index + 1) ++ " of " ++ pretty total_chunks
  ++ " from a religious/biblical teaching.

Instructions:
- Provide the complete transcript text for this audio segment
- Include proper punctuation and capitalization
- Organize into paragraphs where natural breaks occur
- If this chunk starts mid-sentence (not chunk 1), begin naturally without indicating it's a continuation
- If this chunk ends mid-sentence (not the last chunk), end naturally without indicating it continues
- Do not add any commentary, analysis, or chunk number references
- If there are unclear sections, use [unclear] notation
- IMPORTANT: If there are long pauses (3+ seconds), replace them with two empty lines (double line break)
- For shorter natural pauses, use normal paragraph breaks
- Do not use [pause] notation - instead use the two empty lines for long pauses

Please provide only the transcript text for this audio segment.".

(** The [while audio_file.state.name == "PROCESSING"] loop. *)
Fixpoint wait_processing (fuel : nat) (audio_file : RemoteFile) : M RemoteFile :=
  if String.eqb (state_name audio_file) "PROCESSING" then
    match fuel with
    | O => fun _ => OutOfFuel
    | S fuel' =>
        time_sleep 5;;
        audio_file ← genai_get_file (name audio_file);
        wait_processing fuel' audio_file
    end
  else mret audio_file.

(** The body of the [try] statement. *)
Definition transcribe_chunk_body (fuel : nat) (chunk_path : string)
    (start_ms end_ms : Z) (chunk_index total_chunks : nat) : M ChunkResult :=
  chunk_start_time ← time_time;
  audio_file ← genai_upload_file chunk_path;
  audio_file ← wait_processing fuel audio_file;
  if String.eqb (state_name audio_file) "FAILED" then
    mret {| success := false;
            error := Some ("Chunk " ++ pretty (chunk_index + 1)
                           ++ " processing failed");
            transcript := "";
            start_time := start_ms;
            end_time := end_ms;
            processing_time := None;
            word_count := None |}
  else
    response ← model_generate_content
                 (chunk_prompt chunk_index total_chunks) audio_file;
    genai_delete_file (name audio_file);;
    now ← time_time;
    let chunk_time := tsub now chunk_start_time in
    answer ← response_text response;
    match answer with
    | String _ _ =>
        let transcript := PyStr.strip answer in
        let word_count := PyStr.split_len transcript in
        mret {| success := true;
                error := None;
                transcript := transcript;
                start_time := start_ms;
                end_time := end_ms;
                processing_time := Some chunk_time;
                word_count := Some word_count |}
    | EmptyString =>
        mret {| success := false;
                error := Some ("No transcription generated for chunk "
                               ++ pretty (chunk_index + 1));
                transcript := "";
                start_time := start_ms;
                end_time := end_ms;
                processing_time := Some chunk_time;
                word_count := None |}
    end.

(** The two lines printed before the [try] statement:
    [f"\n🎵 Transcribing chunk {chunk_index + 1}/{total_chunks}"] and
    [f"⏰ Time range: {start_time_str} - {end_time_str}"]. *)
Definition chunk_line (chunk_index total_chunks : nat) : string :=
  PyStr.nl ++ "🎵 Transcribing chunk " ++ pretty (chunk_index + 1) ++ "/"
  ++ pretty total_chunks.

Definition range_line (start_time_str end_time_str : string) : string :=
  "⏰ Time range: " ++ start_time_str ++ " - " ++ end_time_str.

(** The result built by the [except Exception as e] clause. *)
Definition chunk_error_result (start_ms end_ms : Z) (chunk_index : nat) (e : exn)
  : ChunkResult :=
  {| success := false;
     error := Some ("Chunk " ++ pretty (chunk_index + 1)
                    ++ " error: " ++ exn_msg e);
     transcript := "";
     start_time := start_ms;
     end_time := end_ms;
     processing_time := Some tzero;
     word_count := None |}.

(** The [try] statement with its [except] clause. *)
Definition transcribe_chunk_try (fuel : nat) (chunk_path : string)
    (start_ms end_ms : Z) (chunk_index total_chunks : nat) : M ChunkResult :=
  try_except
    (transcribe_chunk_body fuel chunk_path start_ms end_ms
                           chunk_index total_chunks)
    (fun e => mret (chunk_error_result start_ms end_ms chunk_index e)).

(** The whole method: the two ends of the window are turned into text and
    the chunk is announced on the console before the [try] statement is
    entered, so an exception raised there leaves the method. A [chunk_info]
    is a triple by its type. *)
Definition transcribe_chunk (fuel : nat) (chunk_info : Chunk)
    (chunk_index total_chunks : nat) : M ChunkResult :=
  let '(chunk_path, start_ms, end_ms) := chunk_info in
  start_time_str ← timedelta_str start_ms;
  end_time_str ← timedelta_str end_ms;
  print (chunk_line chunk_index total_chunks);;
  print (range_line start_time_str end_time_str);;
  transcribe_chunk_try fuel chunk_path start_ms end_ms
                       chunk_index total_chunks.

(** ** [transcribe_long_audio] *)

(** [for i, chunk_info in enumerate(chunks)], from index [i] on. *)
Fixpoint transcribe_chunks (fuel : nat) (total_chunks : nat) (i : nat)
    (chunks : list Chunk) (chunk_results : list ChunkResult)
  : M (list ChunkResult) :=
  match chunks with
  | [] => mret chunk_results
  | chunk_info :: rest =>
      chunk_result ← transcribe_chunk fuel chunk_info i total_chunks;
      (if (Z.of_nat i <? Z.of_nat total_chunks - 1)%Z
       then time_sleep 2 else mret tt);;
      transcribe_chunks fuel total_chunks (i + 1) rest
                        (chunk_results ++ [chunk_result])%list
  end.

(** The body of the [try] statement of the clean-up loop. *)
Definition cleanup_chunk (chunk_path : string) : M unit :=
  os_remove chunk_path;;
  let temp_dir := dirname env chunk_path in
  there ← os_path_exists temp_dir;
  if (there : bool) then
    entries ← os_listdir temp_dir;
    if decide (entries = ∅) then os_rmdir temp_dir else mret tt
  else mret tt.

(** [for chunk_path, _, _ in chunks]: the clean-up of the temporary chunk
    files. *)
Fixpoint cleanup_chunks (audio_file_path : string) (chunks : list Chunk) : M unit :=
  match chunks with
  | [] => mret tt
  | (chunk_path, _, _) :: rest =>
      (if decide (chunk_path ≠ audio_file_path)
       then try_except (cleanup_chunk chunk_path) (fun _ => mret tt)
       else mret tt);;
      cleanup_chunks audio_file_path rest
  end.

(** The lines printed outside the [try] statement: the banner, a rule of
    60 characters and [f"📁 File size: {file_size_mb:.2f} MB"]. *)
Definition banner : string :=
  "🎙️  ENHANCED GEMINI TRANSCRIPTION WITH CHUNKING".

Definition rule_60 : string := String.concat "" (replicate 60 "=").

Definition size_line (size : Z) : string :=
  "📁 File size: " ++ format_mb env size ++ " MB".

Definition transcribe_long_audio (fuel : nat) (audio_file_path : string) : M Report :=
  print banner;;
  print rule_60;;
  overall_start_time ← time_time;
  there ← os_path_exists audio_file_path;
  if negb (there : bool) then
    mret {| report_success := false;
            report_error := Some ("Audio file not found: " ++ audio_file_path);
            report_transcript := "";
            total_chunks := None;
            successful_chunks := None;
            failed_chunks := None;
            total_words := None;
            total_processing_time := None;
            chunk_results := None |}
  else
    size ← os_path_getsize audio_file_path;
    print (size_line size);;
    try_except
      (chunks ← split_audio fuel audio_file_path;
       results ← transcribe_chunks fuel (length chunks) 0 chunks [];
       cleanup_chunks audio_file_path chunks;;
       let final_result := merge_transcriptions results in
       now ← time_time;
       mret {| report_success := report_success final_result;
               report_error := report_error final_result;
               report_transcript := report_transcript final_result;
               total_chunks := total_chunks final_result;
               successful_chunks := successful_chunks final_result;
               failed_chunks := failed_chunks final_result;
               total_words := total_words final_result;
               total_processing_time := Some (tsub now overall_start_time);
               chunk_results := chunk_results final_result |})
      (fun e =>
         now ← time_time;
         mret {| report_success := false;
                 report_error := Some ("Overall transcription error: " ++ exn_msg e);
                 report_transcript := "";
                 total_chunks := None;
                 successful_chunks := None;
                 failed_chunks := None;
                 total_words := None;
                 total_processing_time := Some (tsub now overall_start_time);
                 chunk_results := None |}).

End Model.

Arguments ChunkResult time : clear implicits.
Arguments Report time : clear implicits.
Arguments Env time : clear implicits.

(** ** Concrete collaborators, used to run the model *)

(** Whole seconds as a clock. *)
#[global] Instance Z_clock : Clock Z :=
  {| tzero := 0%Z; tadd := Z.add; tsub := Z.sub |}.

Module Posix.

(** [posixpath.join(a, b)]. *)
Definition join (a b : string) : string :=
  if String.prefix "/" b then b
  else if String.eqb a "" then b
  else if String.eqb (substring (String.length a - 1) 1 a) "/" then a ++ b
  else a ++ "/" ++ b.

(** [p[:p.rfind('/') + 1]]. *)
Fixpoint head_of (p : string) : string :=
  match p with
  | EmptyString => EmptyString
  | String c p' =>
      match head_of p' with
      | EmptyString => if Ascii.eqb c "/" then "/" else EmptyString
      | h => String c h
      end
  end.

(** [head.rstrip('/')]. *)
Fixpoint rstrip_slash (s : string) : string :=
  match s with
  | EmptyString => EmptyString
  | String c s' =>
      match rstrip_slash s' with
      | EmptyString => if Ascii.eqb c "/" then EmptyString else String c EmptyString
      | r => String c r
      end
  end.

(** [posixpath.dirname(p)]. *)
Definition dirname (p : string) : string :=
  let head := head_of p in
  match rstrip_slash head with
  | EmptyString => head
  | stripped => stripped
  end.

End Posix.

(** [f"{size / 1024 / 1024:.2f}"] for a size below 2^53 bytes, where both
    divisions are exact: the hundredths of a megabyte, rounded half to
    even. *)
Definition mb_text (size : Z) : string :=
  let q := (size * 100 / 1048576)%Z in
  let r := (size * 100 mod 1048576)%Z in
  let hundredths :=
    if (524288 <? r)%Z || ((r =? 524288)%Z && Z.odd q) then (q + 1)%Z else q in
  pretty (hundredths / 100)%Z ++ "." ++ pad2 (hundredths mod 100)%Z.

(** The number of [get_file] calls made so far. *)
Definition polls (h : list event) : nat :=
  length (List.filter (fun e => match e with EvGetFile _ => true | _ => false end) h).

(** A scripted environment: the audio lasts [duration] ms; the file of
    chunk [path] stays in [PROCESSING] for one poll and then enters
    [final_state path]; the service answers [answer name]; the operating
    system refuses nothing. *)
Definition script (duration : Z) (final_state : string -> string)
    (answer : string -> exn + string) : Env Z :=
  {| upload_file := fun _ path =>
       inr {| name := "files/" ++ path; state_name := "PROCESSING" |};
     get_file := fun _ file =>
       inr {| name := file; state_name := final_state file |};
     generate_content := fun _ _ audio_file =>
       inr {| text := answer (name audio_file) |};
     delete_file := fun _ _ => inr tt;
     clock := fun h => Z.of_nat (length h);
     from_file := fun _ _ => inr duration;
     export := fun _ _ _ _ => inr tt;
     mkdtemp := fun _ => inr "/tmp/tmpq8x";
     remove := fun _ _ => inr tt;
     rmdir := fun _ _ => inr tt;
     getsize := fun _ _ => inr 31457280%Z;
     console := fun _ _ => inr tt;
     format_mb := mb_text;
     path_join := Posix.join;
     dirname := Posix.dirname |}.

Definition world0 : World :=
  {| trace := []; files := {["/audio/talk.mp3"]}; dirs := {["/audio"; "/tmp"]} |}.

Definition minutes_25 : Transcriber :=
  {| chunk_duration_minutes := 25; chunk_duration_ms := 25 * 60 * 1000 |}.

Definition run_62_minutes : res (Report Z) :=
  transcribe_long_audio
    (script (62 * 60 * 1000) (fun _ => "ACTIVE") (fun n => inr (" text of " ++ n ++ " ")))
    minutes_25 5 "/audio/talk.mp3" world0.

(** ** The specification's vocabulary *)

Section Vocabulary.

Context {time : Type} `{Clock time}.

(** The text built from the chosen transcripts: joined by two line breaks,
    then one [replace] pass. *)
Definition merged_text (parts : list string) : string :=
  PyStr.replace PyStr.nl3 PyStr.nl2 (PyStr.join PyStr.nl2 parts).

(** Chunk results tagged with the index of their chunk, in the order in
    which they completed. *)
Definition Indexed : Type := nat * ChunkResult time.

Fixpoint insert_by_index (x : Indexed) (l : list Indexed) : list Indexed :=
  match l with
  | [] => [x]
  | y :: l' => if (x.1 <=? y.1)%nat then x :: y :: l' else y :: insert_by_index x l'
  end.

(** The results in ascending chunk-index order. *)
Definition sort_by_index (l : list Indexed) : list Indexed :=
  foldr insert_by_index [] l.

(** The indices ascend along the list. *)
Definition ascending (l : list Indexed) : Prop :=
  Sorted (fun x y => (x.1 <= y.1)%nat) l.

(** What the specification asks of the merged text: the transcripts of the
    successful chunks in ascending chunk-index order. *)
Definition spec_text_by_index (l : list Indexed) : string :=
  merged_text (map transcript (List.filter success (map snd (sort_by_index l)))).

(** The sum of the processing times of a list of results, an absent time
    counting as zero. *)
Definition sum_processing_times (results : list (ChunkResult time)) : time :=
  fold_left (fun acc r => tadd acc (default tzero (processing_time r)))
            results tzero.

(** The sum of the word counts, an absent count counting as zero. *)
Definition sum_word_counts (results : list (ChunkResult time)) : nat :=
  fold_left (fun acc r => acc + default 0 (word_count r)) results 0.

(** The quotient of [d] by [c] rounded up, for a positive [c]. *)
Definition ceil_div (d c : Z) : Z := ((d + c - 1) / c)%Z.

(** The windows follow one another from [start] to [stop]: each begins
    where the one before ended. *)
Fixpoint covers (start stop : Z) (chunks : list Chunk) : Prop :=
  match chunks with
  | [] => start = stop
  | (_, a, b) :: rest => a = start ∧ covers b stop rest
  end.

(** Every window but the last lasts exactly [c] ms. *)
Fixpoint full_but_last (c : Z) (chunks : list Chunk) : Prop :=
  match chunks with
  | [] => True
  | (_, a, b) :: rest =>
      match rest with
      | [] => True
      | _ :: _ => (b - a = c)%Z
      end ∧ full_but_last c rest
  end.

(** A window is not empty and lasts at most [c] ms. *)
Definition window_ok (c : Z) (chunk : Chunk) : Prop :=
  (chunk.1.2 < chunk.2 ∧ chunk.2 - chunk.1.2 <= c)%Z.

(** A result of [transcribe_chunk] is well formed: a failure has an empty
    transcript and a non-empty error message, a success has no error. *)
Definition result_ok (r : ChunkResult time) : Prop :=
  (success r = false →
     transcript r = "" ∧ ∃ msg, error r = Some msg ∧ msg ≠ "")
  ∧ (success r = true → error r = None).

(** The events a run appended to the trace. *)
Definition appended (w w' : World) (evs : list event) : Prop :=
  trace w' = (trace w ++ evs)%list.

(** A run left the local files and directories as they were. *)
Definition same_files (w w' : World) : Prop :=
  files w' = files w ∧ dirs w' = dirs w.

(** The calls that do not touch the local files: the clock, the pacing
    delays and the remote service. *)
Definition remote_event (e : event) : bool :=
  match e with
  | EvTime | EvSleep _ | EvUploadFile _ | EvGetFile _
  | EvGenerateContent _ | EvDeleteFile _ => true
  | _ => false
  end.

(** The paths on which [os.remove] was called, in the order of the
    calls. *)
Definition removals (evs : list event) : list string :=
  omap (fun e => match e with EvRemove path => Some path | _ => None end) evs.

(** Between [w0] and [w] the file [source] was never removed: it is still
    there and no [os.remove] was called on it. *)
Definition kept (source : string) (w0 w : World) : Prop :=
  source ∈ files w
  ∧ ∃ evs, appended w0 w evs ∧ Forall (fun e => e ≠ EvRemove source) evs.

(** Running [m] keeps [I] true, whether it returns or raises. *)
Definition preserves {A} (I : World → Prop) (m : M A) : Prop :=
  ∀ w, I w →
       match m w with
       | Ret _ w' => I w'
       | Raise _ w' => I w'
       | OutOfFuel => True
       end.

(** The four ways in which [transcribe_chunk] returns, with the events of
    the call and the result: the remote file ended in state [FAILED]; the
    service answered with a text; it answered with an empty text; an
    exception was caught. On the two paths that follow an answer, the last
    three calls are [generate_content], [delete_file] on the same file and
    the clock. *)
Inductive exit_path (start_ms end_ms : Z) (chunk_index : nat)
  : list event → ChunkResult time → Prop :=
| exit_failed_state evs :
    exit_path start_ms end_ms chunk_index evs
      {| success := false;
         error := Some ("Chunk " ++ pretty (chunk_index + 1)
                        ++ " processing failed");
         transcript := "";
         start_time := start_ms;
         end_time := end_ms;
         processing_time := None;
         word_count := None |}
| exit_transcribed evs file answer chunk_time :
    answer ≠ "" →
    exit_path start_ms end_ms chunk_index
      (evs ++ [EvGenerateContent file; EvDeleteFile file; EvTime])%list
      {| success := true;
         error := None;
         transcript := PyStr.strip answer;
         start_time := start_ms;
         end_time := end_ms;
         processing_time := Some chunk_time;
         word_count := Some (PyStr.split_len (PyStr.strip answer)) |}
| exit_no_text evs file chunk_time :
    exit_path start_ms end_ms chunk_index
      (evs ++ [EvGenerateContent file; EvDeleteFile file; EvTime])%list
      {| success := false;
         error := Some ("No transcription generated for chunk "
                        ++ pretty (chunk_index + 1));
         transcript := "";
         start_time := start_ms;
         end_time := end_ms;
         processing_time := Some chunk_time;
         word_count := None |}
| exit_exception evs e :
    exit_path start_ms end_ms chunk_index evs
      (chunk_error_result start_ms end_ms chunk_index e).

(** [transcribe_chunk] gets to its [try] statement: the two ends of the
    window can be written as durations and the console takes the two lines
    that announce the chunk. *)
Definition chunk_announced (env : Env time) (w : World) (chunk : Chunk)
    (chunk_index total_chunks : nat) : Prop :=
  ∃ start_time_str end_time_str,
    timedelta_text chunk.1.2 = inr start_time_str
    ∧ timedelta_text chunk.2 = inr end_time_str
    ∧ console env (trace w) (chunk_line chunk_index total_chunks) = inr tt
    ∧ console env (trace w) (range_line start_time_str end_time_str) = inr tt.

(** The exception [e] is raised before the [try] statement of
    [transcribe_chunk]: by one of the two durations or by one of the two
    printed lines. *)
Definition chunk_refused (env : Env time) (w : World) (chunk : Chunk)
    (chunk_index total_chunks : nat) (e : exn) : Prop :=
  timedelta_text chunk.1.2 = inl e
  ∨ timedelta_text chunk.2 = inl e
  ∨ console env (trace w) (chunk_line chunk_index total_chunks) = inl e
  ∨ ∃ start_time_str end_time_str,
      timedelta_text chunk.1.2 = inr start_time_str
      ∧ timedelta_text chunk.2 = inr end_time_str
      ∧ console env (trace w) (range_line start_time_str end_time_str) = inl e.

(** The console takes the banner and the rule that open a run. *)
Definition run_announced (env : Env time) (w : World) : Prop :=
  console env (trace w) banner = inr tt
  ∧ console env (trace w) rule_60 = inr tt.

(** The size of the file can be read and the console takes the line that
    shows it. *)
Definition size_shown (env : Env time) (w : World) (path : string) : Prop :=
  ∃ size,
    getsize env (trace w) path = inr size
    ∧ console env (trace w) (size_line env size) = inr tt.

(** The exception [e] leaves [transcribe_long_audio] from one of its
    statements outside the [try]: from the banner or the rule, with the
    world [w] as it was; or, for a file that is there, from
    [os.path.getsize] or from the line that shows the size, after the one
    reading of the clock. *)
Definition raised_before_try (env : Env time) (w : World) (path : string)
    (e : exn) (w' : World) : Prop :=
  (w' = w
   ∧ (console env (trace w) banner = inl e
      ∨ console env (trace w) rule_60 = inl e))
  ∨ (w' = log_event EvTime w
     ∧ path ∈ files w ∪ dirs w
     ∧ (getsize env (trace w') path = inl e
        ∨ ∃ size, getsize env (trace w') path = inr size
                  ∧ console env (trace w') (size_line env size) = inl e)).

End Vocabulary.

Arguments Indexed time : clear implicits.

(** Sample results: a chunk that was transcribed and one that was not,
    each with the seconds it took. *)
Definition chunk_ok (answer : string) (seconds : Z) : ChunkResult Z :=
  {| success := true;
     error := None;
     transcript := answer;
     start_time := 0;
     end_time := 1500000;
     processing_time := Some seconds;
     word_count := Some (PyStr.split_len answer) |}.

Definition chunk_failed (msg : string) (seconds : Z) : ChunkResult Z :=
  {| success := false;
     error := Some msg;
     transcript := "";
     start_time := 0;
     end_time := 1500000;
     processing_time := Some seconds;
     word_count := None |}.

(** A service on which every uploaded file ends in state [FAILED]. *)
Definition failing_service : Env Z :=
  script (62 * 60 * 1000) (fun _ => "FAILED") (fun _ => inr "text").

(** A service that answers every chunk with the text [answer]. *)
Definition answering_service (answer : string) : Env Z :=
  script (62 * 60 * 1000) (fun _ => "ACTIVE") (fun _ => inr answer).

(** A service that cannot be reached: every upload raises. *)
Definition offline_service : Env Z :=
  {| upload_file := fun _ _ => inl (Exn "connection refused");
     get_file := fun _ file => inr {| name := file; state_name := "ACTIVE" |};
     generate_content := fun _ _ _ => inr {| text := inr "text" |};
     delete_file := fun _ _ => inr tt;
     clock := fun h => Z.of_nat (length h);
     from_file := fun _ _ => inr (62 * 60 * 1000)%Z;
     export := fun _ _ _ _ => inr tt;
     mkdtemp := fun _ => inr "/tmp/tmpq8x";
     remove := fun _ _ => inr tt;
     rmdir := fun _ _ => inr tt;
     getsize := fun _ _ => inr 31457280%Z;
     console := fun _ _ => inr tt;
     format_mb := mb_text;
     path_join := Posix.join;
     dirname := Posix.dirname |}.

(** A service on which the file of the second chunk ends in state
    [FAILED]; the other chunks are answered with their file name. *)
Definition second_chunk_fails : Env Z :=
  script (62 * 60 * 1000)
         (fun file =>
            if String.eqb file "files//tmp/tmpq8x/chunk_002.mp3"
            then "FAILED" else "ACTIVE")
         (fun file => inr file).

(** A transcriber whose chunks would last 0 minutes. *)
Definition minutes_0 : Transcriber :=
  {| chunk_duration_minutes := 0; chunk_duration_ms := 0 |}.

(** A world in which the first chunk has been written to its temporary
    file. *)
Definition first_chunk : Chunk := ("/tmp/tmpq8x/chunk_001.mp3", 0%Z, 1500000%Z).

Definition world_split : World :=
  {| trace := [];
     files := {["/audio/talk.mp3"; "/tmp/tmpq8x/chunk_001.mp3"]};
     dirs := {["/audio"; "/tmp"; "/tmp/tmpq8x"]} |}.

(** [n] line breaks in a row. *)
Definition breaks (n : nat) : string :=
  String.concat "" (replicate n PyStr.nl).

(** A recording short enough to be sent as one chunk, for which the service
    answers [answer]. *)
Definition run_short (answer : string) : res (Report Z) :=
  transcribe_long_audio
    (script (10 * 60 * 1000) (fun _ => "ACTIVE") (fun _ => inr answer))
    minutes_25 5 "/audio/talk.mp3" world0.

(** ** Vocabulary of the further properties *)

(** The text without its line breaks. *)
Fixpoint without_breaks (s : string) : string :=
  match s with
  | EmptyString => EmptyString
  | String c s' =>
      if Ascii.eqb c "010" then without_breaks s'
      else String c (without_breaks s')
  end.

(** The first [k] characters of [s] are line breaks. *)
Fixpoint breaks_first (k : nat) (s : string) : bool :=
  match k, s with
  | O, _ => true
  | S k', String c s' => Ascii.eqb c "010" && breaks_first k' s'
  | S _, EmptyString => false
  end.

(** The first, and the last, character of [s] is white space. *)
Definition starts_with_space (s : string) : bool :=
  match s with
  | EmptyString => false
  | String c _ => PyStr.is_space c
  end.

Fixpoint ends_with_space (s : string) : bool :=
  match s with
  | EmptyString => false
  | String c EmptyString => PyStr.is_space c
  | String _ s' => ends_with_space s'
  end.
(** A chunk text as the worker leaves it when the service answered with
    something to read: not empty, without white space at either end; and
    without three line breaks in a row inside. *)
Definition tidy (s : string) : Prop :=
  s ≠ ""
  ∧ starts_with_space s = false
  ∧ ends_with_space s = false
  ∧ PyStr.contains PyStr.nl3 s = false.


(** An event that [transcribe_chunk] logs after its upload: the clock, a
    poll with its delay of 5 s, [generate_content], [delete_file]. *)
Definition after_upload (e : event) : bool :=
  match e with
  | EvTime | EvSleep 5 | EvGetFile _ | EvGenerateContent _ | EvDeleteFile _ =>
      true
  | _ => false
  end.

(** A pacing delay of the orchestrator: [time.sleep(2)]. *)
Definition is_pacing (e : event) : bool :=
  match e with
  | EvSleep 2 => true
  | _ => false
  end.

(** The calls of the worker of one chunk: the clock, the upload of the
    chunk, and then only polls with their delays of 5 s,
    [generate_content], [delete_file] and the clock. *)
Definition worker_block (chunk : Chunk) (block : list event) : Prop :=
  ∃ evs, block = EvTime :: EvUploadFile chunk.1.1 :: evs
         ∧ Forall (fun e => after_upload e = true) evs.

(** The calls of the loop over the chunks, worker by worker: a pacing
    delay stands between the calls of one worker and those of the next,
    and none after the last. *)
Fixpoint paced (blocks : list (list event)) : list event :=
  match blocks with
  | [] => []
  | block :: rest =>
      match rest with
      | [] => block
      | _ :: _ => block ++ EvSleep 2 :: paced rest
      end
  end.

(** The paths uploaded, in the order of the calls. *)
Definition uploads (evs : list event) : list string :=
  omap (fun e => match e with EvUploadFile path => Some path | _ => None end) evs.

(** The window of a chunk. *)
Definition chunk_range (chunk : Chunk) : Z * Z := (chunk.1.2, chunk.2).

Section FurtherVocabulary.

Context {time : Type} `{Clock time}.

(** The window recorded in a result. *)
Definition result_range (r : ChunkResult time) : Z * Z :=
  (start_time r, end_time r).

(** A result as the worker builds it for a chunk: it carries the window of
    the chunk and is well formed; the transcript of a success has no white
    space at either end, and its word count is the number of words of that
    transcript. *)
Definition worker_result (chunk : Chunk) (r : ChunkResult time) : Prop :=
  result_range r = chunk_range chunk
  ∧ result_ok r
  ∧ (success r = true →
     starts_with_space (transcript r) = false
     ∧ ends_with_space (transcript r) = false
     ∧ word_count r = Some (PyStr.split_len (transcript r))
     ∧ is_Some (processing_time r)).

(** A report is well formed: a failure has an empty transcript and a
    non-empty error message, a success has no error and all its counts. *)
Definition report_ok (report : Report time) : Prop :=
  (report_success report = false →
     report_transcript report = ""
     ∧ ∃ msg, report_error report = Some msg ∧ msg ≠ "")
  ∧ (report_success report = true →
     report_error report = None
     ∧ is_Some (total_chunks report)
     ∧ is_Some (successful_chunks report)
     ∧ is_Some (failed_chunks report)
     ∧ is_Some (total_words report)
     ∧ is_Some (chunk_results report)).

(** The report of [merge_transcriptions] after
    [final_result['total_processing_time'] = seconds]. *)
Definition with_wall_clock (report : Report time) (seconds : time) : Report time :=
  {| report_success := report_success report;
     report_error := report_error report;
     report_transcript := report_transcript report;
     total_chunks := total_chunks report;
     successful_chunks := successful_chunks report;
     failed_chunks := failed_chunks report;
     total_words := total_words report;
     total_processing_time := Some seconds;
     chunk_results := chunk_results report |}.

(** The report for a file that does not exist. *)
Definition not_found_report (audio_file_path : string) : Report time :=
  {| report_success := false;
     report_error := Some ("Audio file not found: " ++ audio_file_path);
     report_transcript := "";
     total_chunks := None;
     successful_chunks := None;
     failed_chunks := None;
     total_words := None;
     total_processing_time := None;
     chunk_results := None |}.

(** The report built by the [except Exception as e] clause of
    [transcribe_long_audio]. *)
Definition overall_error_report (e : exn) (seconds : time) : Report time :=
  {| report_success := false;
     report_error := Some ("Overall transcription error: " ++ exn_msg e);
     report_transcript := "";
     total_chunks := None;
     successful_chunks := None;
     failed_chunks := None;
     total_words := None;
     total_processing_time := Some seconds;
     chunk_results := None |}.

End FurtherVocabulary.


(** ** [save_transcript_with_metadata] *)

(** [f"{n:,}"] for a natural number: the decimal digits in groups of three. *)
Fixpoint group_digits (digits : string) : string :=
  match digits with
  | EmptyString => EmptyString
  | String c rest =>
      String c
        (if ((0 <? String.length rest)%nat
             && (String.length rest mod 3 =? 0)%nat)
         then "," ++ group_digits rest
         else group_digits rest)
  end.

Definition with_commas (n : nat) : string := group_digits (pretty n).

(** ["=" * 80]. *)
Definition rule_80 : string := String.concat "" (replicate 80 "=").

(** What is written until a piece fails to evaluate: every [f.write(...)]
    first builds its text, which may raise, and then appends it. *)
Fixpoint write_pieces (pieces : list (exn + string)) : string * option exn :=
  match pieces with
  | [] => (EmptyString, None)
  | inl e :: _ => (EmptyString, Some e)
  | inr piece :: rest =>
      let '(content, failure) := write_pieces rest in
      (piece ++ content, failure)
  end.

(** What [save_transcript_with_metadata] did: the value it returned and the
    file it wrote, if it opened one. *)
Record Saved := {
  returned : option string;
  written : option (string * string)
}.

Section ReportWriter.

Context {time : Type} `{Clock time}.

(** The collaborators of the report writer: the two readings of
    [datetime.now()] as formatted by [strftime], [Path(...).stem],
    [os.path.basename], the format [:.2f] of a number of seconds, and
    [open(path, 'w')], which may raise. Writing to the open file is taken
    to succeed. *)
Record Desk := {
  now_stamp : string;
  now_text : string;
  path_stem : string -> string;
  path_basename : string -> string;
  fmt_2f : time -> string;
  open_file : string -> exn + unit
}.

Context (desk : Desk).

(** [f"{result.get(key, 'N/A')}"] for a count. *)
Definition count_or_na (count : option nat) : string :=
  match count with
  | Some n => pretty n
  | None => "N/A"
  end.

(** The writes of one round of the loop over the chunk results. *)
Definition chunk_pieces (i : nat) (chunk_result : ChunkResult time)
  : list (exn + string) :=
  match timedelta_text (start_time chunk_result),
        timedelta_text (end_time chunk_result) with
  | inl e, _ => [inl e]
  | inr _, inl e => [inl e]
  | inr start_text, inr end_text =>
      List.app
      [inr (PyStr.nl ++ "Chunk " ++ pretty (i + 1) ++ ":" ++ PyStr.nl);
       inr ("  Time Range: " ++ start_text ++ " - " ++ end_text ++ PyStr.nl);
       inr ("  Status: "
            ++ (if success chunk_result then "SUCCESS" else "FAILED")
            ++ PyStr.nl);
       inr ("  Processing Time: "
            ++ fmt_2f desk (default tzero (processing_time chunk_result))
            ++ "s" ++ PyStr.nl);
       inr ("  Word Count: " ++ pretty (default 0 (word_count chunk_result))
            ++ PyStr.nl)]
      (if success chunk_result then []
       else [inr ("  Error: " ++ default "None" (error chunk_result)
                  ++ PyStr.nl)])
  end.

(** The writes of the header, up to the line of the failed chunks. *)
Definition header_pieces (result : Report time) (audio_file_path : string)
  : list (exn + string) :=
  [inr (rule_80 ++ PyStr.nl);
   inr ("ENHANCED GEMINI TRANSCRIPTION WITH CHUNKING" ++ PyStr.nl);
   inr (rule_80 ++ PyStr.nl);
   inr ("Audio File: " ++ path_basename desk audio_file_path ++ PyStr.nl);
   inr ("Generated: " ++ now_text desk ++ PyStr.nl);
   inr ("Total Processing Time: "
        ++ fmt_2f desk (default tzero (total_processing_time result))
        ++ " seconds" ++ PyStr.nl);
   inr ("Total Chunks: " ++ count_or_na (total_chunks result) ++ PyStr.nl);
   inr ("Successful Chunks: " ++ count_or_na (successful_chunks result)
        ++ PyStr.nl);
   inr ("Failed Chunks: " ++ count_or_na (failed_chunks result) ++ PyStr.nl)].

(** The line of the total of words: the format [:,] applied to the text
    ['N/A'] raises a [ValueError]. *)
Definition total_words_piece (result : Report time) : exn + string :=
  match total_words result with
  | Some n => inr ("Total Words: " ++ with_commas n ++ PyStr.nl)
  | None => inl (Exn "Cannot specify ',' with 's'.")
  end.

(** The section on the chunks, written when the key ['chunk_results'] is
    there. *)
Definition details_pieces (result : Report time) : list (exn + string) :=
  match chunk_results result with
  | None => []
  | Some results =>
      List.app
        [inr (PyStr.nl2 ++ rule_80 ++ PyStr.nl);
         inr ("CHUNK PROCESSING DETAILS" ++ PyStr.nl);
         inr (rule_80 ++ PyStr.nl)]
        (List.concat (imap chunk_pieces results))
  end.

(** All the writes of the body of the [with] statement, in order. *)
Definition report_pieces (result : Report time) (audio_file_path : string)
  : list (exn + string) :=
  List.app (header_pieces result audio_file_path)
    (List.app
       [total_words_piece result;
        inr (rule_80 ++ PyStr.nl2);
        inr (report_transcript result)]
       (details_pieces result)).

(** The file to write: the one asked for, or a name made of the stem of
    the audio file and the time. *)
Definition output_name (audio_file_path : string) (output_file : option string)
  : string :=
  match output_file with
  | Some file => file
  | None =>
      path_stem desk audio_file_path ++ "_transcript_" ++ now_stamp desk
      ++ ".txt"
  end.

Definition save_transcript_with_metadata (result : Report time)
    (audio_file_path : string) (output_file : option string) : Saved :=
  let output_file := output_name audio_file_path output_file in
  match open_file desk output_file with
  | inl _ => {| returned := None; written := None |}
  | inr _ =>
      let '(content, failure) :=
        write_pieces (report_pieces result audio_file_path) in
      {| returned := match failure with
                     | None => Some output_file
                     | Some _ => None
                     end;
         written := Some (output_file, content) |}
  end.

(** The two ends of the window of a result can be printed as durations. *)
Definition printable (r : ChunkResult time) : Prop :=
  (∃ s, timedelta_text (start_time r) = inr s)
  ∧ (∃ s, timedelta_text (end_time r) = inr s).

End ReportWriter.

Arguments Desk time : clear implicits.

(** A desk for runs of the model: seconds are whole numbers. *)
Definition desk0 : Desk Z :=
  {| now_stamp := "20250101_120000";
     now_text := "2025-01-01 12:00:00";
     path_stem := fun _ => "talk";
     path_basename := fun _ => "talk.mp3";
     fmt_2f := fun seconds => pretty seconds ++ ".00";
     open_file := fun _ => inr tt |}.


(** An audio library whose export of the second chunk fails. *)
Definition export_fails_second : Env Z :=
  {| upload_file := fun _ path =>
       inr {| name := "files/" ++ path; state_name := "ACTIVE" |};
     get_file := fun _ file => inr {| name := file; state_name := "ACTIVE" |};
     generate_content := fun _ _ _ => inr {| text := inr "text" |};
     delete_file := fun _ _ => inr tt;
     clock := fun h => Z.of_nat (length h);
     from_file := fun _ _ => inr (62 * 60 * 1000)%Z;
     export := fun _ _ start_ms _ =>
       if (start_ms =? 1500000)%Z then inl (Exn "disk full") else inr tt;
     mkdtemp := fun _ => inr "/tmp/tmpq8x";
     remove := fun _ _ => inr tt;
     rmdir := fun _ _ => inr tt;
     getsize := fun _ _ => inr 31457280%Z;
     console := fun _ _ => inr tt;
     format_mb := mb_text;
     path_join := Posix.join;
     dirname := Posix.dirname |}.

(** A run in which every chunk fails. *)
Definition run_all_failed : res (Report Z) :=
  transcribe_long_audio failing_service minutes_25 5 "/audio/talk.mp3" world0.

(** A service that transcribes but refuses to delete the uploaded file. *)
Definition release_refused : Env Z :=
  {| upload_file := fun _ path =>
       inr {| name := "files/" ++ path; state_name := "ACTIVE" |};
     get_file := fun _ file => inr {| name := file; state_name := "ACTIVE" |};
     generate_content := fun _ _ _ => inr {| text := inr "some text" |};
     delete_file := fun _ _ => inl (Exn "403 permission denied");
     clock := fun h => Z.of_nat (length h);
     from_file := fun _ _ => inr (62 * 60 * 1000)%Z;
     export := fun _ _ _ _ => inr tt;
     mkdtemp := fun _ => inr "/tmp/tmpq8x";
     remove := fun _ _ => inr tt;
     rmdir := fun _ _ => inr tt;
     getsize := fun _ _ => inr 31457280%Z;
     console := fun _ _ => inr tt;
     format_mb := mb_text;
     path_join := Posix.join;
     dirname := Posix.dirname |}.

(** The text has a character beyond the Basic Multilingual Plane: its
    UTF-8 encoding has a byte that opens a sequence of four. *)
Fixpoint has_wide_char (text : string) : bool :=
  match text with
  | EmptyString => false
  | String c rest => (240 <=? nat_of_ascii c)%nat || has_wide_char rest
  end.

(** A service that answers every chunk, with a console whose encoding has
    no character beyond the Basic Multilingual Plane (as cp1252, the
    encoding of a redirected output on Windows): [print] raises a
    [UnicodeEncodeError] for a text with such a character. *)
Definition narrow_console : Env Z :=
  {| upload_file := fun _ path =>
       inr {| name := "files/" ++ path; state_name := "ACTIVE" |};
     get_file := fun _ file => inr {| name := file; state_name := "ACTIVE" |};
     generate_content := fun _ _ _ => inr {| text := inr "some text" |};
     delete_file := fun _ _ => inr tt;
     clock := fun h => Z.of_nat (length h);
     from_file := fun _ _ => inr (62 * 60 * 1000)%Z;
     export := fun _ _ _ _ => inr tt;
     mkdtemp := fun _ => inr "/tmp/tmpq8x";
     remove := fun _ _ => inr tt;
     rmdir := fun _ _ => inr tt;
     getsize := fun _ _ => inr 31457280%Z;
     console := fun _ text =>
       if has_wide_char text
       then inl (Exn "'charmap' codec can't encode character")
       else inr tt;
     format_mb := mb_text;
     path_join := Posix.join;
     dirname := Posix.dirname |}.

(** A chunk whose window ends after more than 999999999 days. *)
Definition endless_chunk : Chunk :=
  ("/tmp/tmpq8x/chunk_001.mp3", 0%Z, 86400000000000000000%Z).

(** * Properties *)

(** ** The merger *)

Section MergeProofs.

Context {time : Type} `{Clock time}.

Implicit Types results : list (ChunkResult time).

Lemma merge_fold results parts words ptime :
  fold_left merge_step results (parts, words, ptime)
  = ((parts ++ map transcript results)%list,
     fold_left (fun acc r => acc + default 0 (word_count r)) results words,
     fold_left (fun acc r => tadd acc (default tzero (processing_time r)))
               results ptime).
Proof.
  revert parts words ptime.
  induction results as [|r results IH]; intros parts words ptime; simpl.
  - by rewrite app_nil_r.
  - rewrite IH. by rewrite <- app_assoc.
Qed.

(** The report in the two cases of [merge_transcriptions]. *)
Lemma merge_none results :
  List.filter success results = [] →
  merge_transcriptions results
  = {| report_success := false;
       report_error := Some "All chunks failed to transcribe";
       report_transcript := "";
       total_chunks := None;
       successful_chunks := None;
       failed_chunks := None;
       total_words := None;
       total_processing_time := None;
       chunk_results := Some results |}.
Proof. intros E. unfold merge_transcriptions. by rewrite E. Qed.

Lemma merge_some results :
  List.filter success results ≠ [] →
  merge_transcriptions results
  = {| report_success := true;
       report_error := None;
       report_transcript :=
         merged_text (map transcript (List.filter success results));
       total_chunks := Some (length results);
       successful_chunks := Some (length (List.filter success results));
       failed_chunks :=
         Some (length (List.filter (fun r => negb (success r)) results));
       total_words := Some (sum_word_counts (List.filter success results));
       total_processing_time :=
         Some (sum_processing_times (List.filter success results));
       chunk_results := Some results |}.
Proof.
  intros E. unfold merge_transcriptions.
  destruct (List.filter success results) as [|r rest] eqn:F; [done|].
  by rewrite merge_fold.
Qed.

Lemma filter_success_nil results :
  List.filter success results = [] ↔ existsb success results = false.
Proof.
  induction results as [|r results IH]; simpl; [done|].
  destruct (success r); simpl; [split; discriminate | exact IH].
Qed.

Lemma filter_partition_length {A} (f : A → bool) (l : list A) :
  length (List.filter f l) + length (List.filter (fun x => negb (f x)) l)
  = length l.
Proof.
  induction l as [|x l IH]; simpl; [done|].
  destruct (f x); simpl; lia.
Qed.

Lemma merge_transcript results :
  report_transcript (merge_transcriptions results)
  = merged_text (map transcript (List.filter success results)).
Proof.
  destruct (List.filter success results) as [|r rest] eqn:F.
  - by rewrite merge_none.
  - rewrite merge_some; rewrite F; done.
Qed.

Lemma insert_by_index_head (x : Indexed time) l :
  HdRel (fun x y => (x.1 <= y.1)%nat) x l → insert_by_index x l = x :: l.
Proof.
  intros [|y l' Hxy]; simpl; [done|].
  by rewrite (proj2 (Nat.leb_le _ _) Hxy).
Qed.

Lemma sort_by_index_ascending (l : list (Indexed time)) :
  ascending l → sort_by_index l = l.
Proof.
  induction 1 as [|x l Hs IH Hd]; [done|].
  change (sort_by_index (x :: l)) with (insert_by_index x (sort_by_index l)).
  rewrite IH. by apply insert_by_index_head.
Qed.

(** C1 (as amended): [merge_transcriptions] keeps the order of its input
    list. The merged text is made of the successful transcripts in the order
    in which the results appear in the list; it is the text in ascending
    chunk-index order whenever the list itself is in ascending chunk-index
    order, which is how the orchestrator builds it. *)
Theorem merge_keeps_list_order (l : list (Indexed time)) :
  report_transcript (merge_transcriptions (map snd l))
  = merged_text (map transcript (List.filter success (map snd l)))
  ∧ (ascending l →
     report_transcript (merge_transcriptions (map snd l))
     = spec_text_by_index l).
Proof.
  split; [apply merge_transcript|].
  intros Hl. unfold spec_text_by_index.
  rewrite (sort_by_index_ascending l Hl). apply merge_transcript.
Qed.

(** C4 (as amended): when at least one chunk succeeded, the
    [total_processing_time] of the report built by [merge_transcriptions]
    is the sum of the processing times of the successful chunks only; when
    none succeeded the report has no [total_processing_time]. *)
Theorem merge_total_processing_time results :
  total_processing_time (merge_transcriptions results)
  = if existsb success results
    then Some (sum_processing_times (List.filter success results))
    else None.
Proof.
  destruct (existsb success results) eqn:E.
  - rewrite merge_some; [done|].
    intros F. apply filter_success_nil in F. congruence.
  - rewrite merge_none; [done|]. by apply filter_success_nil.
Qed.

(** C5 (as amended): when at least one chunk succeeded, the report gives
    [total_chunks] as the length of the input list and [successful_chunks]
    and [failed_chunks] add up to it; when no chunk succeeded (also for an
    empty list) the report carries none of the three counts (nor a total
    of words or of time): it has only [success = False], the error
    ['All chunks failed to transcribe'], an empty transcript and the
    [chunk_results]. *)
Theorem merge_counts results :
  let report := merge_transcriptions results in
  if existsb success results
  then ∃ s f,
      total_chunks report = Some (length results)
      ∧ successful_chunks report = Some s
      ∧ failed_chunks report = Some f
      ∧ s + f = length results
      ∧ s = length (List.filter success results)
      ∧ f = length (List.filter (fun r => negb (success r)) results)
  else total_chunks report = None
       ∧ successful_chunks report = None
       ∧ failed_chunks report = None
       ∧ total_words report = None
       ∧ total_processing_time report = None
       ∧ report_success report = false
       ∧ report_error report = Some "All chunks failed to transcribe"
       ∧ report_transcript report = ""
       ∧ chunk_results report = Some results.
Proof.
  cbv zeta. destruct (existsb success results) eqn:E.
  - rewrite merge_some.
    + eexists _, _. repeat split. apply filter_partition_length.
    + intros F. apply filter_success_nil in F. congruence.
  - rewrite merge_none; [done|]. by apply filter_success_nil.
Qed.

(** C6: the report of [merge_transcriptions] has [success = True] exactly
    when at least one entry of the list has [success = True]; when every
    entry failed, the report has [success = False] and an empty
    transcript. *)
Theorem merge_success_iff results :
  (report_success (merge_transcriptions results) = true
   ↔ ∃ r, In r results ∧ success r = true)
  ∧ ((∀ r, In r results → success r = false) →
     report_success (merge_transcriptions results) = false
     ∧ report_transcript (merge_transcriptions results) = "").
Proof.
  assert (Hex : existsb success results = true
                ↔ ∃ r, In r results ∧ success r = true)
    by apply existsb_exists.
  destruct (existsb success results) eqn:E.
  - rewrite merge_some
      by (intros F; apply filter_success_nil in F; congruence).
    simpl. split; [tauto|].
    intros Hall. destruct (proj1 Hex eq_refl) as (r & Hr & Hs).
    rewrite (Hall r Hr) in Hs. discriminate.
  - rewrite merge_none by (by apply filter_success_nil).
    simpl. split; [|done].
    split; [discriminate|]. intros Hr. apply Hex in Hr. discriminate.
Qed.

End MergeProofs.

(** C1 (as stated) fails: two successful results that completed in the
    order chunk 1, chunk 0 are merged in that order, not by index. *)
Lemma merge_ignores_chunk_index :
  ¬ ∀ l : list (Indexed Z),
      report_transcript (merge_transcriptions (map snd l))
      = spec_text_by_index l.
Proof.
  intros Hall.
  specialize (Hall [(1, chunk_ok "second" 1); (0, chunk_ok "first" 1)]).
  vm_compute in Hall. discriminate.
Qed.

Lemma merge_keeps_list_order_witness :
  let l := [(0, chunk_ok "first" 1); (1, chunk_failed "lost" 1);
            (2, chunk_ok "third" 1)] in
  report_transcript (merge_transcriptions (map snd l))
  = "first" ++ PyStr.nl2 ++ "third"
  ∧ spec_text_by_index l = "first" ++ PyStr.nl2 ++ "third".
Proof.
  cbv zeta. split; [reflexivity|].
  rewrite <- (proj2 (merge_keeps_list_order _)); [reflexivity|].
  repeat constructor; simpl; lia.
Defined.

(** C3: the single [replace] pass leaves three line breaks in a row. The
    service answers with four line breaks between two words of one chunk;
    and two chunk texts that end and start with a line break meet at a
    seam of four. *)
Theorem merge_leaves_three_line_breaks :
  (∃ report w,
      run_short ("a" ++ breaks 4 ++ "b") = Ret report w
      ∧ report_transcript report = "a" ++ breaks 3 ++ "b"
      ∧ PyStr.contains PyStr.nl3 (report_transcript report) = true)
  ∧ (let report :=
       merge_transcriptions
         [chunk_ok ("a" ++ PyStr.nl) 1; chunk_ok (PyStr.nl ++ "b") 1] in
     report_transcript report = "a" ++ breaks 3 ++ "b"
     ∧ PyStr.contains PyStr.nl3 (report_transcript report) = true).
Proof.
  split.
  - eexists _, _. split; [vm_compute; reflexivity|]. split; reflexivity.
  - split; reflexivity.
Qed.

(** C4 (as stated) fails: the time of a failed chunk is not counted. *)
Lemma merge_time_skips_failed_chunks :
  ¬ ∀ results : list (ChunkResult Z),
      total_processing_time (merge_transcriptions results)
      = Some (sum_processing_times results).
Proof.
  intros Hall.
  specialize (Hall [chunk_ok "first" 3; chunk_failed "lost" 5]).
  vm_compute in Hall. discriminate.
Qed.

(** C5 (as stated) fails: the report for a list of failures has no
    counts. *)
Lemma merge_all_failed_has_no_counts :
  ¬ ∀ results : list (ChunkResult Z),
      ∃ s f,
        total_chunks (merge_transcriptions results) = Some (length results)
        ∧ successful_chunks (merge_transcriptions results) = Some s
        ∧ failed_chunks (merge_transcriptions results) = Some f
        ∧ s + f = length results.
Proof.
  intros Hall.
  destruct (Hall [chunk_failed "lost" 1]) as (s & f & Htotal & _).
  vm_compute in Htotal. discriminate.
Qed.

Lemma merge_success_iff_witness :
  let results := [chunk_failed "lost" 1; chunk_failed "gone" 2] in
  report_success (merge_transcriptions results) = false
  ∧ report_transcript (merge_transcriptions results) = "".
Proof.
  cbv zeta. apply merge_success_iff.
  intros r [<-|[<-|[]]]; reflexivity.
Defined.

(** ** Running monadic code *)

Lemma bind_Ret {A B} (m : M A) (f : A → M B) w a w' :
  m w = Ret a w' → (m ≫= f) w = f a w'.
Proof. intros E. unfold mbind, M_bind. by rewrite E. Qed.

Lemma bind_Raise {A B} (m : M A) (f : A → M B) w e w' :
  m w = Raise e w' → (m ≫= f) w = Raise e w'.
Proof. intros E. unfold mbind, M_bind. by rewrite E. Qed.

Lemma bind_OutOfFuel {A B} (m : M A) (f : A → M B) w :
  m w = OutOfFuel → (m ≫= f) w = OutOfFuel.
Proof. intros E. unfold mbind, M_bind. by rewrite E. Qed.

(** ** The splitter *)

Lemma ceil_div_zero c : (0 < c)%Z → ceil_div 0 c = 0%Z.
Proof. intros. unfold ceil_div. apply Z.div_small. lia. Qed.

Lemma ceil_div_small d c : (0 < d <= c)%Z → ceil_div d c = 1%Z.
Proof.
  intros. unfold ceil_div.
  replace (d + c - 1)%Z with ((d - 1) + 1 * c)%Z by lia.
  rewrite Z.div_add by lia. rewrite Z.div_small; lia.
Qed.

Lemma ceil_div_step d c : (0 < c)%Z → ceil_div (d - c) c = (ceil_div d c - 1)%Z.
Proof.
  intros. unfold ceil_div.
  replace (d - c + c - 1)%Z with ((d + c - 1) + (-1) * c)%Z by lia.
  rewrite Z.div_add by lia. lia.
Qed.

Lemma ceil_div_pos d c : (0 < c)%Z → (0 < d)%Z → (0 < ceil_div d c)%Z.
Proof.
  intros. unfold ceil_div. apply Z.div_str_pos. lia.
Qed.

Section SplitProofs.

Context {time : Type} `{Clock time} (env : Env time) (self : Transcriber).

Hypothesis export_ok : ∀ h p a b, export env h p a b = inr tt.

Lemma audio_export_ok p a b w :
  audio_export env p a b w
  = Ret tt {| trace := (trace w ++ [EvExport p a b])%list;
              files := files w ∪ {[p]};
              dirs := dirs w |}.
Proof. unfold audio_export, call. by rewrite export_ok. Qed.

Lemma split_loop_spec fuel :
  ∀ temp_dir D start number acc w,
    (0 < chunk_duration_ms self)%Z →
    (start <= D)%Z →
    (ceil_div (D - start) (chunk_duration_ms self) <= Z.of_nat fuel)%Z →
    ∃ new w',
      split_loop env self fuel temp_dir D start number acc w
      = Ret (acc ++ new)%list w'
      ∧ Z.of_nat (length new) = ceil_div (D - start) (chunk_duration_ms self)
      ∧ covers start D new
      ∧ Forall (window_ok (chunk_duration_ms self)) new
      ∧ full_but_last (chunk_duration_ms self) new.
Proof.
  induction fuel as [|fuel IH]; intros temp_dir D start number acc w HC Hle Hfuel.
  - assert (start = D) as ->.
    { destruct (Z.eq_dec start D); [done|].
      assert (0 < ceil_div (D - start) (chunk_duration_ms self))%Z
        by (apply ceil_div_pos; lia).
      lia. }
    exists [], w. simpl. rewrite Z.ltb_irrefl, app_nil_r, Z.sub_diag.
    rewrite ceil_div_zero by done. by repeat split.
  - simpl. destruct (Z.ltb_spec start D) as [Hlt|Hge].
    + set (stop := Z.min (start + chunk_duration_ms self) D).
      set (file := path_join env temp_dir (chunk_file_name number)).
      erewrite bind_Ret by apply audio_export_ok.
      destruct (IH temp_dir D stop (number + 1)
                   (acc ++ [(file, start, stop)])%list
                   {| trace := (trace w ++ [EvExport file start stop])%list;
                      files := files w ∪ {[file]};
                      dirs := dirs w |})
        as (new & w' & Hrun & Hlen & Hcov & Hwin & Hfull);
        [done | subst stop; lia | |].
      { subst stop. destruct (Z.min_spec (start + chunk_duration_ms self) D)
          as [[? ->]|[? ->]].
        - replace (D - (start + chunk_duration_ms self))%Z
            with (D - start - chunk_duration_ms self)%Z by lia.
          rewrite ceil_div_step by done. lia.
        - rewrite Z.sub_diag, ceil_div_zero by done. lia. }
      exists ((file, start, stop) :: new), w'.
      rewrite Hrun, <- app_assoc. split; [done|].
      assert (Hstop : (start < stop ∧ stop - start <= chunk_duration_ms self)%Z)
        by (subst stop; lia).
      split; [|split; [by split | split; [by constructor|]]].
      * simpl length. rewrite Nat2Z.inj_succ, Hlen. subst stop.
        destruct (Z.min_spec (start + chunk_duration_ms self) D)
          as [[? ->]|[? ->]].
        -- replace (D - (start + chunk_duration_ms self))%Z
             with (D - start - chunk_duration_ms self)%Z by lia.
           rewrite ceil_div_step by done. lia.
        -- rewrite Z.sub_diag, ceil_div_zero by done.
           rewrite ceil_div_small; lia.
      * simpl. split; [|done].
        destruct new as [|[[? a] b] new']; [done|].
        destruct (Z.eq_dec stop D) as [Heq|Hne]; [|subst stop; lia].
        rewrite Heq, Z.sub_diag, ceil_div_zero in Hlen by done.
        discriminate Hlen.
    + assert (start = D) as -> by lia.
      exists [], w. rewrite app_nil_r, Z.sub_diag.
      rewrite ceil_div_zero by done. by repeat split.
Qed.

(** With a chunk length of 0 ms the loop of [split_audio] never advances:
    whatever the fuel, the model is still running. *)
Lemma split_loop_zero_length fuel :
  ∀ temp_dir D number chunks w,
    chunk_duration_ms self = 0%Z → (0 < D)%Z →
    split_loop env self fuel temp_dir D 0 number chunks w = OutOfFuel.
Proof.
  induction fuel as [|fuel IH]; intros temp_dir D number chunks w HC HD; simpl.
  - by rewrite (proj2 (Z.ltb_lt _ _) HD).
  - rewrite (proj2 (Z.ltb_lt _ _) HD).
    erewrite bind_Ret by apply audio_export_ok.
    rewrite HC. replace (Z.min (0 + 0) D) with 0%Z by lia. by apply IH.
Qed.


End SplitProofs.


(** ** The worker *)

Section WorkerProofs.

Context {time : Type} `{Clock time} (env : Env time).

Lemma appended_refl w : appended w w [].
Proof. unfold appended. by rewrite app_nil_r. Qed.

Lemma appended_trans w1 w2 w3 evs evs' :
  appended w1 w2 evs → appended w2 w3 evs' → appended w1 w3 (evs ++ evs')%list.
Proof. unfold appended. intros E1 E2. by rewrite E2, E1, app_assoc. Qed.

Lemma appended_log e w : appended w (log_event e w) [e].
Proof. done. Qed.

(** What the polling loop does to the world, whether it ends by returning
    or by raising. *)
Lemma wait_processing_world fuel :
  ∀ audio_file w,
    match wait_processing env fuel audio_file w with
    | Ret audio_file' w' =>
        (∃ evs, appended w w' evs ∧ Forall (fun e => remote_event e = true) evs)
        ∧ same_files w w'
        ∧ String.eqb (state_name audio_file') "PROCESSING" = false
    | Raise _ w' =>
        (∃ evs, appended w w' evs ∧ Forall (fun e => remote_event e = true) evs)
        ∧ same_files w w'
    | OutOfFuel => True
    end.
Proof.
  induction fuel as [|fuel IH]; intros audio_file w; simpl.
  - destruct (String.eqb _ _) eqn:E; [done|].
    split; [|done]. exists []. split; [apply appended_refl | constructor].
  - destruct (String.eqb _ _) eqn:E.
    + unfold mbind, M_bind, time_sleep, genai_get_file, call.
      destruct (get_file env _ _) as [e|audio_file'].
      * split; [|done]. exists [EvSleep 5; EvGetFile (name audio_file)].
        split; [|by repeat constructor].
        unfold appended. simpl. by rewrite <- app_assoc.
      * specialize (IH audio_file'
                       (log_event (EvGetFile (name audio_file))
                                  (log_event (EvSleep 5) w))).
        destruct (wait_processing env fuel audio_file' _) as [f' w'|e w'|];
          [| |done].
        -- destruct IH as ((evs & Happ & Hrem) & Hfs & Hst).
           split; [|done].
           exists ([EvSleep 5; EvGetFile (name audio_file)] ++ evs)%list.
           split; [|by repeat constructor].
           unfold appended in *. rewrite Happ. simpl. by rewrite <- !app_assoc.
        -- destruct IH as ((evs & Happ & Hrem) & Hfs).
           split; [|done].
           exists ([EvSleep 5; EvGetFile (name audio_file)] ++ evs)%list.
           split; [|by repeat constructor].
           unfold appended in *. rewrite Happ. simpl. by rewrite <- !app_assoc.
    + split; [|done]. exists []. split; [apply appended_refl | constructor].
Qed.

Lemma Forall_remote_app evs evs' :
  Forall (fun e => remote_event e = true) evs →
  Forall (fun e => remote_event e = true) evs' →
  Forall (fun e => remote_event e = true) (evs ++ evs')%list.
Proof. intros. by apply Forall_app. Qed.

(** Every way out of the [try] statement of [transcribe_chunk]: it
    returns along one of the four exit paths, having made only remote
    calls; it never raises; and the model runs out of fuel only inside the
    polling loop. *)
Lemma transcribe_chunk_try_exit fuel chunk_path start_ms end_ms i n w :
  match transcribe_chunk_try env fuel chunk_path start_ms end_ms i n w with
  | Ret r w' =>
      ∃ evs, appended w w' evs
             ∧ Forall (fun e => remote_event e = true) evs
             ∧ same_files w w'
             ∧ exit_path start_ms end_ms i evs r
  | Raise _ _ => False
  | OutOfFuel =>
      ∃ audio_file,
        upload_file env (trace w ++ [EvTime])%list chunk_path = inr audio_file
        ∧ wait_processing env fuel audio_file
            (log_event (EvUploadFile chunk_path) (log_event EvTime w))
          = OutOfFuel
  end.
Proof.
  unfold transcribe_chunk_try, try_except, transcribe_chunk_body.
  unfold mbind, M_bind, time_time, genai_upload_file, call. simpl.
  destruct (upload_file env _ chunk_path) as [e|audio_file] eqn:Hup.
  { exists [EvTime; EvUploadFile chunk_path].
    split; [unfold appended; simpl; by rewrite <- app_assoc|].
    split; [by repeat constructor|]. split; [done|]. constructor. }
  pose proof (wait_processing_world fuel audio_file
                (log_event (EvUploadFile chunk_path) (log_event EvTime w)))
    as Hwait.
  destruct (wait_processing env fuel audio_file _)
    as [ready w1|e w1|] eqn:Hrun; [| |by eauto].
  2:{ destruct Hwait as ((evs & Happ & Hrem) & Hfs).
      exists ([EvTime; EvUploadFile chunk_path] ++ evs)%list.
      split; [unfold appended in *; rewrite Happ; simpl;
              by rewrite <- !app_assoc|].
      split; [by repeat constructor|]. split; [done|]. constructor. }
  destruct Hwait as ((evs & Happ & Hrem) & Hfs & Hstate).
  assert (Hpre : appended w w1 ([EvTime; EvUploadFile chunk_path] ++ evs)%list).
  { unfold appended in *. rewrite Happ. simpl. by rewrite <- !app_assoc. }
  assert (Hprem : Forall (fun e => remote_event e = true)
                         ([EvTime; EvUploadFile chunk_path] ++ evs)%list)
    by (by repeat constructor).
  clear Happ Hrem. revert Hpre Hprem.
  generalize ([EvTime; EvUploadFile chunk_path] ++ evs)%list.
  clear evs. intros evs Hpre Hprem.
  destruct (String.eqb (state_name ready) "FAILED").
  { exists evs. split; [done|]. split; [done|]. split; [done|]. constructor. }
  unfold model_generate_content, genai_delete_file, response_text, call.
  destruct (generate_content env _ _ ready) as [e|response].
  { exists (evs ++ [EvGenerateContent (name ready)])%list.
    split; [unfold appended in *; simpl; rewrite Hpre;
            by rewrite <- !app_assoc|].
    split; [apply Forall_remote_app; by repeat constructor|].
    split; [done|]. constructor. }
  simpl. destruct (delete_file env _ _) as [e|[]].
  { exists (evs ++ [EvGenerateContent (name ready); EvDeleteFile (name ready)])%list.
    split; [unfold appended in *; simpl; rewrite Hpre;
            by rewrite <- !app_assoc|].
    split; [apply Forall_remote_app; by repeat constructor|].
    split; [done|]. constructor. }
  simpl.
  assert (Hall : appended w
            (log_event EvTime
               (log_event (EvDeleteFile (name ready))
                  (log_event (EvGenerateContent (name ready)) w1)))
            (evs ++ [EvGenerateContent (name ready);
                     EvDeleteFile (name ready); EvTime])%list).
  { unfold appended in *. simpl. rewrite Hpre. by rewrite <- !app_assoc. }
  assert (Hallrem : Forall (fun e => remote_event e = true)
            (evs ++ [EvGenerateContent (name ready);
                     EvDeleteFile (name ready); EvTime])%list)
    by (apply Forall_remote_app; by repeat constructor).
  destruct (text response) as [e|answer]; simpl.
  { eexists. split; [exact Hall|]. split; [done|]. split; [done|]. constructor. }
  destruct answer as [|c answer]; simpl.
  - eexists. split; [exact Hall|]. split; [done|]. split; [done|].
    apply exit_no_text.
  - eexists. split; [exact Hall|]. split; [done|]. split; [done|].
    by apply (exit_transcribed _ _ _ _ _ (String c answer)).
Qed.

(** [transcribe_chunk] fails before its [try] statement, with the world
    as it was, or it is its [try] statement. *)
Lemma transcribe_chunk_start fuel chunk_path start_ms end_ms i n w :
  (∃ e, chunk_refused env w (chunk_path, start_ms, end_ms) i n e
        ∧ transcribe_chunk env fuel (chunk_path, start_ms, end_ms) i n w
          = Raise e w)
  ∨ (chunk_announced env w (chunk_path, start_ms, end_ms) i n
     ∧ transcribe_chunk env fuel (chunk_path, start_ms, end_ms) i n w
       = transcribe_chunk_try env fuel chunk_path start_ms end_ms i n w).
Proof.
  unfold transcribe_chunk, chunk_refused, chunk_announced.
  unfold mbind, M_bind, timedelta_str, print, raise. cbn [fst snd].
  destruct (timedelta_text start_ms) as [e|a] eqn:Ha.
  { left. exists e. split; [by left|done]. }
  destruct (timedelta_text end_ms) as [e|b] eqn:Hb.
  { left. exists e. split; [by right; left|done]. }
  cbn.
  destruct (console env (trace w) (chunk_line i n)) as [e|[]] eqn:Hc.
  { left. exists e. split; [by right; right; left|done]. }
  destruct (console env (trace w) (range_line a b)) as [e|[]] eqn:Hr.
  { left. exists e. split; [|done]. right. right. right. by exists a, b. }
  right. split; [|done]. by exists a, b.
Qed.

Lemma announced_not_refused chunk i n w e :
  chunk_announced env w chunk i n → ¬ chunk_refused env w chunk i n e.
Proof.
  intros (a & b & Ha & Hb & Hc & Hr) [E|[E|[E|(a' & b' & Ha' & Hb' & E)]]];
    congruence.
Qed.

(** A chunk that is announced is handled by the [try] statement. *)
Lemma transcribe_chunk_announced fuel chunk_path start_ms end_ms i n w :
  chunk_announced env w (chunk_path, start_ms, end_ms) i n →
  transcribe_chunk env fuel (chunk_path, start_ms, end_ms) i n w
  = transcribe_chunk_try env fuel chunk_path start_ms end_ms i n w.
Proof.
  intros Hann.
  destruct (transcribe_chunk_start fuel chunk_path start_ms end_ms i n w)
    as [(e & Href & _)|(_ & ->)]; [|done].
  by apply announced_not_refused in Href.
Qed.

(** Every way out of [transcribe_chunk]: an exception leaves it only from
    the statements before the [try], with the world as it was. *)
Lemma transcribe_chunk_exit fuel chunk_path start_ms end_ms i n w :
  match transcribe_chunk env fuel (chunk_path, start_ms, end_ms) i n w with
  | Ret r w' =>
      ∃ evs, appended w w' evs
             ∧ Forall (fun e => remote_event e = true) evs
             ∧ same_files w w'
             ∧ exit_path start_ms end_ms i evs r
  | Raise e w' =>
      w' = w ∧ chunk_refused env w (chunk_path, start_ms, end_ms) i n e
  | OutOfFuel =>
      ∃ audio_file,
        upload_file env (trace w ++ [EvTime])%list chunk_path = inr audio_file
        ∧ wait_processing env fuel audio_file
            (log_event (EvUploadFile chunk_path) (log_event EvTime w))
          = OutOfFuel
  end.
Proof.
  destruct (transcribe_chunk_start fuel chunk_path start_ms end_ms i n w)
    as [(e & Href & ->)|(_ & ->)]; [done|].
  pose proof (transcribe_chunk_try_exit fuel chunk_path start_ms end_ms i n w)
    as Hexit.
  by destruct (transcribe_chunk_try env fuel chunk_path start_ms end_ms i n w).
Qed.

Lemma wait_processing_done fuel audio_file w :
  String.eqb (state_name audio_file) "PROCESSING" = false →
  wait_processing env fuel audio_file w = Ret audio_file w.
Proof. intros E. destruct fuel; simpl; by rewrite E. Qed.

(** A polling loop that ended does the same with more fuel. *)
Lemma wait_processing_more_fuel k fuel :
  ∀ audio_file w,
    wait_processing env fuel audio_file w ≠ OutOfFuel →
    wait_processing env (fuel + k) audio_file w
    = wait_processing env fuel audio_file w.
Proof.
  induction fuel as [|fuel IH]; intros audio_file w Hend.
  - destruct (String.eqb (state_name audio_file) "PROCESSING") eqn:E.
    + simpl in Hend. by rewrite E in Hend.
    + by rewrite !wait_processing_done.
  - simpl in *. destruct (String.eqb _ _); [|done].
    unfold mbind, M_bind, time_sleep, genai_get_file, call in *.
    destruct (get_file env _ _) as [e|audio_file']; [done|].
    by apply IH.
Qed.

(** When the service has settled the state of a file by the first poll,
    one round of the polling loop is enough. *)
Lemma wait_processing_settled fuel audio_file w :
  (∀ h file f, get_file env h file = inr f →
               String.eqb (state_name f) "PROCESSING" = false) →
  0 < fuel →
  wait_processing env fuel audio_file w ≠ OutOfFuel.
Proof.
  intros Hsettled Hfuel. destruct fuel as [|fuel]; [lia|]. simpl.
  destruct (String.eqb _ _); [|done].
  unfold mbind, M_bind, time_sleep, genai_get_file, call.
  destruct (get_file env _ _) as [e|audio_file'] eqn:Hget; [done|].
  by rewrite wait_processing_done by (by eapply Hsettled).
Qed.

Lemma transcribe_chunk_try_more_fuel k fuel chunk_path start_ms end_ms i n w :
  transcribe_chunk_try env fuel chunk_path start_ms end_ms i n w ≠ OutOfFuel →
  transcribe_chunk_try env (fuel + k) chunk_path start_ms end_ms i n w
  = transcribe_chunk_try env fuel chunk_path start_ms end_ms i n w.
Proof.
  unfold transcribe_chunk_try, try_except, transcribe_chunk_body.
  unfold mbind, M_bind, time_time, genai_upload_file, call. simpl.
  destruct (upload_file env _ chunk_path) as [e|audio_file]; [done|].
  intros Hend.
  rewrite wait_processing_more_fuel; [done|].
  intros Hout. by rewrite Hout in Hend.
Qed.

Lemma transcribe_chunk_more_fuel k fuel chunk i n w :
  transcribe_chunk env fuel chunk i n w ≠ OutOfFuel →
  transcribe_chunk env (fuel + k) chunk i n w
  = transcribe_chunk env fuel chunk i n w.
Proof.
  destruct chunk as [[chunk_path start_ms] end_ms].
  unfold transcribe_chunk, mbind, M_bind, timedelta_str, print, raise.
  destruct (timedelta_text start_ms); [done|].
  destruct (timedelta_text end_ms); [done|]. cbn.
  destruct (console env _ _) as [|[]]; [done|].
  destruct (console env _ _) as [|[]]; [done|].
  apply transcribe_chunk_try_more_fuel.
Qed.

(** The loop over the chunks makes remote calls only and leaves the local
    files as they are, whether it returns, with one result per chunk, or
    is left by an exception of a worker. *)
Lemma transcribe_chunks_all fuel total :
  ∀ chunks i acc w,
    match transcribe_chunks env fuel total i chunks acc w with
    | Ret results w' =>
        length results = length acc + length chunks
        ∧ same_files w w'
        ∧ ∃ evs, appended w w' evs
                 ∧ Forall (fun e => remote_event e = true) evs
    | Raise _ w' =>
        same_files w w'
        ∧ ∃ evs, appended w w' evs
                 ∧ Forall (fun e => remote_event e = true) evs
    | OutOfFuel => True
    end.
Proof.
  induction chunks as [|[[chunk_path start_ms] end_ms] chunks IH];
    intros i acc w.
  - simpl. split; [lia|]. split; [done|].
    exists []. split; [apply appended_refl|done].
  - cbn [transcribe_chunks]. unfold mbind, M_bind.
    pose proof (transcribe_chunk_exit fuel chunk_path start_ms end_ms i total w)
      as Hexit.
    destruct (transcribe_chunk env fuel _ i total w) as [r w1|e w1|];
      [| |done].
    2:{ destruct Hexit as [-> _]. split; [done|].
        exists []. split; [apply appended_refl|done]. }
    destruct Hexit as (evs & Happ & Hrem & Hfs & _).
    assert (Hpace : ∃ w2 evs2,
               (if (Z.of_nat i <? Z.of_nat total - 1)%Z
                then time_sleep 2 else mret tt) w1 = Ret tt w2
               ∧ appended w1 w2 evs2
               ∧ Forall (fun e => remote_event e = true) evs2
               ∧ same_files w1 w2).
    { destruct (_ <? _)%Z.
      - exists (log_event (EvSleep 2) w1), [EvSleep 2].
        by repeat split; try constructor.
      - exists w1, []. repeat split; try done. apply appended_refl. }
    destruct Hpace as (w2 & evs2 & -> & Happ2 & Hrem2 & Hfs2).
    specialize (IH (i + 1) (acc ++ [r])%list w2).
    destruct (transcribe_chunks env fuel total (i + 1) chunks _ w2)
      as [results w3|e w3|]; [| |done].
    + destruct IH as (Hlen & Hfs3 & evs3 & Happ3 & Hrem3).
      split; [rewrite Hlen, length_app; simpl; lia|].
      split; [unfold same_files in *; intuition congruence|].
      exists ((evs ++ evs2) ++ evs3)%list. split.
      * eapply appended_trans; [eapply appended_trans|]; eauto.
      * by repeat apply Forall_remote_app.
    + destruct IH as (Hfs3 & evs3 & Happ3 & Hrem3).
      split; [unfold same_files in *; intuition congruence|].
      exists ((evs ++ evs2) ++ evs3)%list. split.
      * eapply appended_trans; [eapply appended_trans|]; eauto.
      * by repeat apply Forall_remote_app.
Qed.

(** C9: every result returned by [transcribe_chunk] is well formed: a
    failure has an empty transcript and a non-empty error message, a
    success has no error. *)
Theorem transcribe_chunk_result_ok fuel chunk i n w r w' :
  transcribe_chunk env fuel chunk i n w = Ret r w' → result_ok r.
Proof.
  destruct chunk as [[chunk_path start_ms] end_ms]. intros Hrun.
  pose proof (transcribe_chunk_exit fuel chunk_path start_ms end_ms i n w)
    as Hexit.
  rewrite Hrun in Hexit. destruct Hexit as (evs & _ & _ & _ & Hpath).
  destruct Hpath; split; simpl; intros; try discriminate; eauto.
Qed.

End WorkerProofs.

(** ** The clean-up loop and the orchestrator *)

(** Closes a branch of the guarded clean-up round that ended after the
    call to [os.rmdir]. *)
Ltac exists_last_world :=
  match goal with
  | |- context [EvRmdir ?d] =>
      eexists _, [EvRmdir d];
      (split; [reflexivity|]);
      (split; [unfold appended; cbn; by rewrite <- app_assoc|]);
      (split; [constructor; [eauto|constructor]|]);
      (split; [by right|done])
  end.

Section OrchestratorProofs.

Context {time : Type} `{Clock time} (env : Env time) (self : Transcriber).

(** One guarded round of the clean-up loop always completes, after a call
    to [os.remove] on the chunk file. No other file is touched, and the
    chunk file is gone unless the operating system refused. *)
Lemma cleanup_chunk_guarded chunk_path w :
  ∃ w' evs,
    try_except (cleanup_chunk env chunk_path) (fun _ => mret tt) w = Ret tt w'
    ∧ appended w w' (EvRemove chunk_path :: evs)
    ∧ Forall (fun e => ∃ d, e = EvRmdir d) evs
    ∧ (files w' = files w ∨ files w' = files w ∖ {[chunk_path]})
    ∧ (remove env (trace w) chunk_path = inr tt →
       files w' = files w ∖ {[chunk_path]}).
Proof.
  unfold try_except, cleanup_chunk, mbind, M_bind, os_remove.
  destruct (remove env (trace w) chunk_path) as [e|[]].
  { eexists _, []. split; [reflexivity|]. split; [done|]. split; [done|].
    split; [by left|]. discriminate. }
  destruct (decide (chunk_path ∈ files w)) as [Hin|Hout].
  - unfold os_path_exists. cbn [files dirs trace log_event].
    destruct (bool_decide _).
    + unfold os_listdir. cbn [files dirs trace].
      destruct (decide (dirname env chunk_path ∈ dirs w)).
      * destruct (decide (_ = ∅)).
        -- unfold os_rmdir. cbn [files dirs trace log_event].
           destruct (rmdir env _ _) as [e'|[]]; [|destruct (decide _)];
             exists_last_world.
        -- eexists _, []. split; [reflexivity|]. split; [done|].
           split; [done|]. split; [by right|done].
      * eexists _, []. split; [reflexivity|]. split; [done|].
        split; [done|]. split; [by right|done].
    + eexists _, []. split; [reflexivity|]. split; [done|].
      split; [done|]. split; [by right|done].
  - eexists _, []. split; [reflexivity|]. split; [done|]. split; [done|].
    split; [by left|]. intros _. cbn. set_solver.
Qed.

(** The clean-up loop always completes. It calls [os.remove] on every
    chunk path that differs from [source] and on no other path; the files
    it removes are among those, and all of those are gone when the
    operating system refuses nothing. *)
Lemma cleanup_chunks_spec source chunks :
  ∀ w, ∃ w' evs,
    cleanup_chunks env source chunks w = Ret tt w'
    ∧ appended w w' evs
    ∧ Forall (fun e => e ≠ EvRemove source ∧ remote_event e = false) evs
    ∧ (∀ p, In p (map (fun c : Chunk => c.1.1) chunks) → p ≠ source →
            In (EvRemove p) evs)
    ∧ files w' ⊆ files w
    ∧ files w ∖ files w'
      ⊆ list_to_set (map (fun c : Chunk => c.1.1) chunks) ∖ {[source]}
    ∧ ((∀ h p, remove env h p = inr tt) →
       files w'
       = files w ∖ (list_to_set (map (fun c : Chunk => c.1.1) chunks)
                    ∖ {[source]})).
Proof.
  induction chunks as [|[[chunk_path start_ms] end_ms] chunks IH]; intros w.
  - exists w, []. split; [done|]. split; [apply appended_refl|].
    split; [done|]. split; [by intros p []|].
    cbn. repeat split; set_solver.
  - cbn [cleanup_chunks]. unfold mbind, M_bind.
    destruct (decide (chunk_path ≠ source)) as [Hne|Heq].
    + destruct (cleanup_chunk_guarded chunk_path w)
        as (w1 & evs & -> & Happ & Hevs & Hfiles & Hgone).
      destruct (IH w1)
        as (w2 & evs2 & -> & Happ2 & Hevs2 & Hcalls2 & Hsub2 & Hdiff2 & Hall2).
      exists w2, ((EvRemove chunk_path :: evs) ++ evs2)%list.
      split; [done|]. split; [by eapply appended_trans|].
      split; [|split; [|split; [|split]]].
      * apply Forall_app. split; [|done].
        constructor; [split; [congruence|done]|].
        eapply Forall_impl; [exact Hevs|].
        intros e [d ->]. by split.
      * intros p [<-|Hp] Hpne; [by left|].
        apply in_or_app. right. by apply Hcalls2.
      * destruct Hfiles as [Hf|Hf]; rewrite Hf in Hsub2; set_solver.
      * cbn. destruct Hfiles as [Hf|Hf]; rewrite Hf in Hdiff2, Hsub2.
        -- set_solver.
        -- intros p Hp. apply elem_of_difference in Hp as [Hp1 Hp2].
           destruct (decide (p = chunk_path)) as [->|Hpc]; [set_solver|].
           assert (p ∈ files w ∖ {[chunk_path]} ∖ files w2) by set_solver.
           set_solver.
      * intros Hos. rewrite (Hall2 Hos), (Hgone (Hos _ _)). cbn. set_solver.
    + apply dec_stable in Heq. subst chunk_path.
      destruct (IH w)
        as (w2 & evs2 & Hrun & Happ2 & Hevs2 & Hcalls2 & Hsub2 & Hdiff2 & Hall2).
      exists w2, evs2. split; [done|]. split; [done|]. split; [done|].
      split; [|split; [done|split]].
      * intros p [<-|Hp] Hpne; [done|]. by apply Hcalls2.
      * cbn. set_solver.
      * intros Hos. rewrite (Hall2 Hos). cbn. set_solver.
Qed.

(** *** The ways out of [transcribe_long_audio] *)

Lemma print_taken text w :
  console env (trace w) text = inr tt → print env text w = Ret tt w.
Proof. intros E. unfold print. by rewrite E. Qed.

Lemma print_refused text w e :
  console env (trace w) text = inl e → print env text w = Raise e w.
Proof. intros E. unfold print. by rewrite E. Qed.

(** The statements of [transcribe_long_audio] before its [try]: they
    raise, or they return whether the file is there. *)
Lemma transcribe_long_audio_start fuel audio_file_path w :
  (∃ e w', raised_before_try env w audio_file_path e w'
           ∧ transcribe_long_audio env self fuel audio_file_path w
             = Raise e w')
  ∨ (run_announced env w
     ∧ (audio_file_path ∉ files w ∪ dirs w)
     ∧ transcribe_long_audio env self fuel audio_file_path w
       = Ret (not_found_report audio_file_path) (log_event EvTime w))
  ∨ (run_announced env w
     ∧ audio_file_path ∈ files w ∪ dirs w
     ∧ size_shown env (log_event EvTime w) audio_file_path
     ∧ transcribe_long_audio env self fuel audio_file_path w
       = try_except
           (chunks ← split_audio env self fuel audio_file_path;
            results ← transcribe_chunks env fuel (length chunks) 0 chunks [];
            cleanup_chunks env audio_file_path chunks;;
            now ← time_time env;
            mret (with_wall_clock (merge_transcriptions results)
                    (tsub now (clock env (trace w)))))
           (fun e =>
              now ← time_time env;
              mret (overall_error_report e (tsub now (clock env (trace w)))))
           (log_event EvTime w)).
Proof.
  unfold transcribe_long_audio, raised_before_try, run_announced, size_shown.
  destruct (console env (trace w) banner) as [e|[]] eqn:Hbanner.
  { left. exists e, w. split; [by left; split; [|left]|].
    by erewrite bind_Raise by (by apply print_refused). }
  erewrite bind_Ret by (by apply print_taken).
  destruct (console env (trace w) rule_60) as [e|[]] eqn:Hrule.
  { left. exists e, w. split; [by left; split; [|right]|].
    by erewrite bind_Raise by (by apply print_refused). }
  erewrite bind_Ret by (by apply print_taken).
  erewrite bind_Ret by reflexivity.
  erewrite bind_Ret by reflexivity.
  cbn [files dirs log_event].
  case_bool_decide as Hthere; cbn [negb]; [|right; left; by repeat split].
  set (w1 := log_event EvTime w).
  assert (Hthere1 : audio_file_path ∈ files w1 ∪ dirs w1) by done.
  destruct (getsize env (trace w1) audio_file_path) as [e|size] eqn:Hsize.
  { left. exists e, w1. split.
    - right. split; [done|]. split; [done|]. by left.
    - erewrite bind_Raise; [done|].
      unfold os_path_getsize. by rewrite decide_True, Hsize. }
  erewrite bind_Ret
    by (unfold os_path_getsize; by rewrite decide_True, Hsize).
  destruct (console env (trace w1) (size_line env size)) as [e|[]] eqn:Hline.
  { left. exists e, w1. split.
    - right. split; [done|]. split; [done|]. right. by exists size.
    - by erewrite bind_Raise by (by apply print_refused). }
  erewrite bind_Ret by (by apply print_taken).
  right. right. split; [done|]. split; [done|]. split; [by exists size|].
  done.
Qed.

(** The ways out of [transcribe_long_audio]. An exception leaves it only
    from the statements before its [try]. It returns when the file is not
    there; when [split_audio] or a worker raised; or when the chunks were
    split, transcribed and cleaned up, and their results merged. *)
Lemma transcribe_long_audio_run fuel audio_file_path w :
  match transcribe_long_audio env self fuel audio_file_path w with
  | Raise e w' => raised_before_try env w audio_file_path e w'
  | OutOfFuel => True
  | Ret report w' =>
      ((audio_file_path ∉ files w ∪ dirs w)
       ∧ report = not_found_report audio_file_path
       ∧ w' = log_event EvTime w)
      ∨ (audio_file_path ∈ files w ∪ dirs w
         ∧ ∃ e w1,
             (split_audio env self fuel audio_file_path (log_event EvTime w)
              = Raise e w1
              ∨ ∃ chunks w0,
                  split_audio env self fuel audio_file_path
                              (log_event EvTime w)
                  = Ret chunks w0
                  ∧ transcribe_chunks env fuel (length chunks) 0 chunks [] w0
                    = Raise e w1)
             ∧ w' = log_event EvTime w1
             ∧ report
               = overall_error_report e
                   (tsub (clock env (trace w1)) (clock env (trace w))))
      ∨ (audio_file_path ∈ files w ∪ dirs w
         ∧ ∃ chunks w1 results w2 w3,
             split_audio env self fuel audio_file_path (log_event EvTime w)
             = Ret chunks w1
             ∧ transcribe_chunks env fuel (length chunks) 0 chunks [] w1
               = Ret results w2
             ∧ cleanup_chunks env audio_file_path chunks w2 = Ret tt w3
             ∧ w' = log_event EvTime w3
             ∧ report
               = with_wall_clock (merge_transcriptions results)
                   (tsub (clock env (trace w3)) (clock env (trace w))))
  end.
Proof.
  destruct (transcribe_long_audio_start fuel audio_file_path w)
    as [(e & w' & Hraised & ->)|[(_ & Hgone & ->)|(_ & Hthere & _ & ->)]];
    [done|by left|].
  unfold try_except, mbind, M_bind, time_time.
  destruct (split_audio env self fuel audio_file_path (log_event EvTime w))
    as [chunks w1|e w1|] eqn:Hsplit; [| |done].
  2:{ right. left. split; [done|]. exists e, w1. by split; [left|]. }
  destruct (transcribe_chunks env fuel (length chunks) 0 chunks [] w1)
    as [results w2|e w2|] eqn:Hrun; [| |done].
  2:{ right. left. split; [done|]. exists e, w2. split; [|done].
      right. by exists chunks, w1. }
  destruct (cleanup_chunks_spec audio_file_path chunks w2)
    as (w3 & evs & Hclean & _).
  rewrite Hclean. right. right. split; [done|].
  by exists chunks, w1, results, w2, w3.
Qed.

(** A run that got as far as merging. *)
Lemma completed_run fuel audio_file_path w report w' :
  transcribe_long_audio env self fuel audio_file_path w = Ret report w' →
  is_Some (chunk_results report) →
  ∃ chunks w1 results w2 w3,
    split_audio env self fuel audio_file_path (log_event EvTime w)
    = Ret chunks w1
    ∧ transcribe_chunks env fuel (length chunks) 0 chunks [] w1
      = Ret results w2
    ∧ cleanup_chunks env audio_file_path chunks w2 = Ret tt w3
    ∧ w' = log_event EvTime w3
    ∧ report
      = with_wall_clock (merge_transcriptions results)
          (tsub (clock env (trace w3)) (clock env (trace w))).
Proof.
  intros Hrun Hsome.
  pose proof (transcribe_long_audio_run fuel audio_file_path w) as Hcases.
  rewrite Hrun in Hcases.
  destruct Hcases as [(_ & -> & _)|[(_ & e & w1 & _ & _ & ->)|(_ & Hdone)]].
  - by destruct Hsome.
  - by destruct Hsome.
  - exact Hdone.
Qed.

Lemma removals_app evs evs' :
  removals (evs ++ evs') = (removals evs ++ removals evs')%list.
Proof. apply omap_app. Qed.

Lemma removals_rmdir evs :
  Forall (fun e => ∃ d, e = EvRmdir d) evs → removals evs = [].
Proof.
  induction 1 as [|e evs [d ->] _ IH]; [done|]. exact IH.
Qed.

(** The clean-up loop calls [os.remove] once for every chunk whose path
    differs from [source], in the order of the chunks. *)
Lemma cleanup_chunks_removals source chunks :
  ∀ w w' evs,
    cleanup_chunks env source chunks w = Ret tt w' →
    appended w w' evs →
    removals evs
    = List.filter (fun p => negb (String.eqb p source))
                  (map (fun c : Chunk => c.1.1) chunks).
Proof.
  induction chunks as [|[[chunk_path start_ms] end_ms] chunks IH];
    intros w w' evs Hrun Happ.
  - cbn in Hrun. injection Hrun as <-.
    unfold appended in Happ. rewrite <- (app_nil_r (trace w)) in Happ at 1.
    by apply app_inv_head in Happ as <-.
  - cbn [cleanup_chunks] in Hrun. unfold mbind, M_bind in Hrun.
    cbn [map List.filter fst].
    destruct (decide (chunk_path ≠ source)) as [Hne|Heq].
    + destruct (cleanup_chunk_guarded chunk_path w)
        as (w1 & evs1 & Hround & Happ1 & Hevs1 & _).
      rewrite Hround in Hrun.
      destruct (cleanup_chunks_spec source chunks w1)
        as (w2 & evs2 & Hrest & Happ2 & _).
      rewrite Hrest in Hrun. injection Hrun as <-.
      assert (evs = (EvRemove chunk_path :: evs1) ++ evs2)%list as ->.
      { pose proof (appended_trans _ _ _ _ _ Happ1 Happ2) as Hall.
        unfold appended in *. rewrite Hall in Happ.
        by apply app_inv_head in Happ. }
      rewrite removals_app, (IH w1 w2 evs2 Hrest Happ2).
      rewrite (proj2 (String.eqb_neq _ _) Hne).
      cbn [negb].
      change (removals (EvRemove chunk_path :: evs1))
        with (chunk_path :: removals evs1).
      by rewrite (removals_rmdir _ Hevs1).
    + apply dec_stable in Heq. subst chunk_path.
      rewrite String.eqb_refl. cbn [negb]. exact (IH w w' evs Hrun Happ).
Qed.

(** C2 (as amended): [transcribe_chunk] itself never deletes the local
    payload of its chunk, on any way out, a result or an exception: it
    makes remote calls only and leaves the local files and directories as
    they were. The temporary payloads are deleted by the clean-up loop of
    [transcribe_long_audio] instead. In every run that returns the results
    of its chunks, the workers of all chunks have returned, with the local
    files as [split_audio] left them, before the clean-up loop starts; the
    loop then runs to its end before the report is returned, makes no
    remote call, and calls [os.remove] once on the payload of every chunk
    other than the source, in the order of the chunks; when the operating
    system refuses no removal, none of these payloads is left when the run
    returns. *)
Theorem chunk_payload_cleanup fuel :
  (∀ chunk i n w,
     match transcribe_chunk env fuel chunk i n w with
     | Ret _ w' | Raise _ w' =>
         same_files w w'
         ∧ ∃ evs, appended w w' evs
                  ∧ Forall (fun e => remote_event e = true) evs
     | OutOfFuel => True
     end)
  ∧ (∀ audio_file_path w report w',
       transcribe_long_audio env self fuel audio_file_path w = Ret report w' →
       is_Some (chunk_results report) →
       ∃ chunks w1 results w2 w3 worker_calls cleanup_calls,
         split_audio env self fuel audio_file_path (log_event EvTime w)
         = Ret chunks w1
         ∧ transcribe_chunks env fuel (length chunks) 0 chunks [] w1
           = Ret results w2
         ∧ chunk_results report = Some results
         ∧ length results = length chunks
         ∧ appended w1 w2 worker_calls
         ∧ Forall (fun e => remote_event e = true) worker_calls
         ∧ same_files w1 w2
         ∧ cleanup_chunks env audio_file_path chunks w2 = Ret tt w3
         ∧ w' = log_event EvTime w3
         ∧ appended w2 w3 cleanup_calls
         ∧ Forall (fun e => remote_event e = false) cleanup_calls
         ∧ removals cleanup_calls
           = List.filter (fun p => negb (String.eqb p audio_file_path))
                         (map (fun c : Chunk => c.1.1) chunks)
         ∧ ((∀ h p, remove env h p = inr tt) →
            ∀ chunk, In chunk chunks → chunk.1.1 ≠ audio_file_path →
                     chunk.1.1 ∉ files w')).
Proof.
  split.
  - intros [[chunk_path start_ms] end_ms] i n w.
    pose proof (transcribe_chunk_exit env fuel chunk_path start_ms end_ms i n w)
      as Hexit.
    destruct (transcribe_chunk env fuel _ i n w) as [r w'|e w'|]; [| |done].
    + destruct Hexit as (evs & Happ & Hrem & Hfs & _). eauto.
    + destruct Hexit as [-> _]. split; [done|].
      exists []. split; [apply appended_refl|done].
  - intros audio_file_path w report w' Hrun Hsome.
    destruct (completed_run _ _ _ _ _ Hrun Hsome)
      as (chunks & w1 & results & w2 & w3 & Hsplit & Hloop & Hclean & -> & ->).
    pose proof (transcribe_chunks_all env fuel (length chunks) chunks 0 [] w1)
      as Hall.
    rewrite Hloop in Hall.
    destruct Hall as (Hlen & Hfs & worker_calls & Happ & Hrem).
    destruct (cleanup_chunks_spec audio_file_path chunks w2)
      as (w3' & cleanup_calls & Hclean' & Happ3 & Hev3 & _ & _ & _ & Hgone).
    rewrite Hclean in Hclean'. injection Hclean' as <-.
    exists chunks, w1, results, w2, w3, worker_calls, cleanup_calls.
    split; [done|]. split; [done|].
    split; [cbn; unfold merge_transcriptions;
            destruct (List.filter success results); [done|];
            by destruct (fold_left _ _ _) as [[? ?] ?]|].
    split; [done|]. split; [done|]. split; [done|]. split; [done|].
    split; [done|]. split; [done|]. split; [done|].
    split; [eapply Forall_impl; [exact Hev3|]; by intros e [_ ?]|].
    split; [by eapply cleanup_chunks_removals|].
    intros Hos chunk Hin Hne. cbn [files log_event]. rewrite (Hgone Hos).
    assert (chunk.1.1 ∈ (list_to_set (map (fun c : Chunk => c.1.1) chunks)
                         : gset string))
      by (apply elem_of_list_to_set, list_elem_of_In, in_map_iff; eauto).
    set_solver.
Qed.

(** *** The source file is never removed *)

Lemma preserves_ret {A} (I : World → Prop) (a : A) : preserves I (mret a).
Proof. by intros w Hw. Qed.

Lemma preserves_bind {A B} (I : World → Prop) (m : M A) (f : A → M B) :
  preserves I m → (∀ a, preserves I (f a)) → preserves I (m ≫= f).
Proof.
  intros Hm Hf w Hw. unfold mbind, M_bind.
  specialize (Hm w Hw). destruct (m w) as [a w'|e w'|]; [|done|done].
  by apply Hf.
Qed.

Lemma preserves_try_except {A} (I : World → Prop) (body : M A) handler :
  preserves I body → (∀ e, preserves I (handler e)) →
  preserves I (try_except body handler).
Proof.
  intros Hm Hh w Hw. unfold try_except.
  specialize (Hm w Hw). destruct (body w) as [a w'|e w'|]; [done| |done].
  by apply Hh.
Qed.

Section Kept.

Variables (source : string) (w0 : World).

Lemma kept_refl : source ∈ files w0 → kept source w0 w0.
Proof.
  intros Hin. split; [done|]. exists []. split; [apply appended_refl|done].
Qed.

Lemma kept_extend w w' evs :
  kept source w0 w →
  appended w w' evs →
  Forall (fun e => e ≠ EvRemove source) evs →
  (source ∈ files w → source ∈ files w') →
  kept source w0 w'.
Proof.
  intros (Hin & evs0 & Happ0 & Hev0) Happ Hev Hfiles.
  split; [by apply Hfiles|].
  exists (evs0 ++ evs)%list. split; [by eapply appended_trans|].
  by apply Forall_app.
Qed.

Lemma kept_log e w :
  e ≠ EvRemove source → kept source w0 w → kept source w0 (log_event e w).
Proof.
  intros He Hk. eapply kept_extend; [exact Hk|apply appended_log| |done].
  by constructor.
Qed.

Lemma preserves_call {A} e (answer : list event → exn + A) :
  e ≠ EvRemove source → preserves (kept source w0) (call e answer).
Proof.
  intros He w Hk. unfold call.
  destruct (answer (trace w)); by apply kept_log.
Qed.

Lemma preserves_time_time : preserves (kept source w0) (time_time env).
Proof. intros w Hk. by apply kept_log. Qed.

Lemma preserves_audio_export p a b :
  preserves (kept source w0) (audio_export env p a b).
Proof.
  intros w Hk. unfold audio_export, call.
  destruct (export env _ _ _ _); [by apply kept_log|].
  eapply kept_extend; [exact Hk|apply (appended_log (EvExport p a b))| |].
  - by constructor.
  - cbn. set_solver.
Qed.

Lemma preserves_mkdtemp : preserves (kept source w0) (tempfile_mkdtemp env).
Proof.
  intros w Hk. unfold tempfile_mkdtemp, call.
  destruct (mkdtemp env _); [by apply kept_log|].
  eapply kept_extend; [exact Hk|apply (appended_log EvMkdtemp)| |done].
  by constructor.
Qed.

Lemma preserves_split_loop fuel :
  ∀ temp_dir D start number chunks,
    preserves (kept source w0)
              (split_loop env self fuel temp_dir D start number chunks).
Proof.
  induction fuel as [|fuel IH]; intros temp_dir D start number chunks; simpl.
  - destruct (_ <? _)%Z; [by intros w Hw|apply preserves_ret].
  - destruct (_ <? _)%Z; [|apply preserves_ret].
    apply preserves_bind; [apply preserves_audio_export|].
    intros _. apply IH.
Qed.

Lemma preserves_split_audio fuel path :
  preserves (kept source w0) (split_audio env self fuel path).
Proof.
  unfold split_audio. apply preserves_bind.
  - by apply preserves_call.
  - intros D. destruct (_ <=? _)%Z; [apply preserves_ret|].
    apply preserves_bind; [apply preserves_mkdtemp|].
    intros temp_dir. apply preserves_split_loop.
Qed.

Lemma remote_event_not_remove evs :
  Forall (fun e => remote_event e = true) evs →
  Forall (fun e => e ≠ EvRemove source) evs.
Proof.
  intros Hrem. eapply Forall_impl; [exact Hrem|].
  intros e He ->. discriminate.
Qed.

Lemma preserves_transcribe_chunks fuel total i chunks acc :
  preserves (kept source w0) (transcribe_chunks env fuel total i chunks acc).
Proof.
  intros w Hk.
  pose proof (transcribe_chunks_all env fuel total chunks i acc w) as Hall.
  destruct (transcribe_chunks env fuel total i chunks acc w)
    as [results w'|e w'|]; [| |done].
  - destruct Hall as (_ & [Hfiles _] & evs & Happ & Hrem).
    eapply kept_extend; [exact Hk|exact Happ| |by rewrite Hfiles].
    by apply remote_event_not_remove.
  - destruct Hall as ([Hfiles _] & evs & Happ & Hrem).
    eapply kept_extend; [exact Hk|exact Happ| |by rewrite Hfiles].
    by apply remote_event_not_remove.
Qed.

Lemma preserves_print text : preserves (kept source w0) (print env text).
Proof. intros w Hk. unfold print. by destruct (console env _ _). Qed.

Lemma preserves_getsize path :
  preserves (kept source w0) (os_path_getsize env path).
Proof.
  intros w Hk. unfold os_path_getsize.
  destruct (decide _); [|done]. by destruct (getsize env _ _).
Qed.

Lemma preserves_cleanup_chunks chunks :
  preserves (kept source w0) (cleanup_chunks env source chunks).
Proof.
  intros w Hk.
  destruct (cleanup_chunks_spec source chunks w)
    as (w' & evs & -> & Happ & Hevs & _ & _ & Hdiff & _).
  eapply kept_extend; [exact Hk|exact Happ| |].
  - eapply Forall_impl; [exact Hevs|]. by intros e [? _].
  - intros Hin. destruct (decide (source ∈ files w')); [done|]. set_solver.
Qed.

Lemma preserves_transcribe_long_audio fuel :
  preserves (kept source w0) (transcribe_long_audio env self fuel source).
Proof.
  unfold transcribe_long_audio.
  apply preserves_bind; [apply preserves_print|]. intros _.
  apply preserves_bind; [apply preserves_print|]. intros _.
  apply preserves_bind; [apply preserves_time_time|]. intros t0.
  apply preserves_bind; [by intros w Hk|]. intros there.
  destruct (negb there); [apply preserves_ret|].
  apply preserves_bind; [apply preserves_getsize|]. intros size.
  apply preserves_bind; [apply preserves_print|]. intros _.
  apply preserves_try_except.
  - apply preserves_bind; [apply preserves_split_audio|]. intros chunks.
    apply preserves_bind; [apply preserves_transcribe_chunks|]. intros results.
    apply preserves_bind; [apply preserves_cleanup_chunks|]. intros _.
    apply preserves_bind; [apply preserves_time_time|]. intros t1.
    apply preserves_ret.
  - intros e. apply preserves_bind; [apply preserves_time_time|]. intros t1.
    apply preserves_ret.
Qed.

End Kept.


End OrchestratorProofs.

(** ** Runs of the model on concrete collaborators *)

(** The scenario of the specification: 62 minutes in chunks of 25 minutes
    give the windows [0,25), [25,50) and [50,62); the second chunk fails
    and the report counts 3 chunks, 2 successes and 1 failure, with the
    first and the third text two line breaks apart. *)
Example scenario_62_minutes :
  ∃ report w,
    transcribe_long_audio second_chunk_fails minutes_25 5 "/audio/talk.mp3" world0
    = Ret report w
    ∧ total_chunks report = Some 3
    ∧ successful_chunks report = Some 2
    ∧ failed_chunks report = Some 1
    ∧ report_transcript report
      = "files//tmp/tmpq8x/chunk_001.mp3" ++ PyStr.nl2
        ++ "files//tmp/tmpq8x/chunk_003.mp3"
    ∧ files w = files world0.
Proof.
  eexists _, _. split; [vm_compute; reflexivity|].
  repeat split; vm_compute; reflexivity.
Qed.

Example init_25_minutes :
  init (Some "key") 25 = inr minutes_25
  ∧ init None 25 = inl (Exn "GOOGLE_API_KEY not found in .env file").
Proof. split; reflexivity. Qed.

Example replace_is_one_pass :
  PyStr.replace PyStr.nl3 PyStr.nl2 (breaks 5) = breaks 4
  ∧ PyStr.replace PyStr.nl3 PyStr.nl2 (breaks 6) = breaks 4.
Proof. split; reflexivity. Qed.

Example strip_and_split :
  PyStr.strip "  two words " = "two words"
  ∧ PyStr.split_len "  two words " = 2
  ∧ PyStr.pad3 7 = "007".
Proof. repeat split; reflexivity. Qed.

(** On the [FAILED] path the worker returns without a call to
    [delete_file], and the payload of the chunk is still on disk. *)
Lemma failed_state_exit :
  ∃ r w',
    transcribe_chunk failing_service 3 first_chunk 0 3 world_split = Ret r w'
    ∧ success r = false
    ∧ (∀ file, ¬ In (EvDeleteFile file) (trace w'))
    ∧ first_chunk.1.1 ∈ files w'.
Proof.
  eexists _, _. split; [vm_compute; reflexivity|].
  split; [reflexivity|]. split.
  - intros file Hin. cbn in Hin. intuition discriminate.
  - vm_compute. reflexivity.
Qed.

(** C2 (as stated) fails: [transcribe_chunk] returns on the [FAILED] path
    without having called [delete_file], and with the local payload still
    in place. *)
Lemma failed_state_skips_release :
  ¬ ∀ (env : Env Z) fuel chunk i n w r w',
      transcribe_chunk env fuel chunk i n w = Ret r w' →
      (∃ evs file, appended w w' evs ∧ In (EvDeleteFile file) evs)
      ∧ chunk.1.1 ∉ files w'.
Proof.
  intros Hall.
  destruct failed_state_exit as (r & w' & Hrun & _ & Hnone & Hfile).
  destruct (Hall _ _ _ _ _ _ _ _ Hrun) as [_ Hgone]. by apply Hgone.
Qed.

Lemma chunk_payload_cleanup_witness :
  (∃ r w',
      transcribe_chunk (answering_service "some text") 3 first_chunk 0 3
                       world_split
      = Ret r w'
      ∧ same_files world_split w')
  ∧ (∃ report w' chunks cleanup_calls,
        run_62_minutes = Ret report w'
        ∧ map (fun c : Chunk => c.1.1) chunks
          = ["/tmp/tmpq8x/chunk_001.mp3"; "/tmp/tmpq8x/chunk_002.mp3";
             "/tmp/tmpq8x/chunk_003.mp3"]
        ∧ removals cleanup_calls
          = ["/tmp/tmpq8x/chunk_001.mp3"; "/tmp/tmpq8x/chunk_002.mp3";
             "/tmp/tmpq8x/chunk_003.mp3"]
        ∧ ∀ chunk, In chunk chunks → chunk.1.1 ∉ files w').
Proof.
  split.
  - pose proof (proj1 (chunk_payload_cleanup (answering_service "some text")
                         minutes_25 3) first_chunk 0 3 world_split) as Hworker.
    destruct (transcribe_chunk (answering_service "some text") 3 first_chunk 0 3
                               world_split) as [r w'|e w'|] eqn:Hrun.
    + exists r, w'. split; [reflexivity|]. exact (proj1 Hworker).
    + vm_compute in Hrun. discriminate Hrun.
    + vm_compute in Hrun. discriminate Hrun.
  - unfold run_62_minutes.
    destruct (transcribe_long_audio _ _ _ _ _) as [report w'|e w'|] eqn:Hrun.
    + assert (Hsome : is_Some (chunk_results report)).
      { vm_compute in Hrun. injection Hrun as <- _. eexists. reflexivity. }
      destruct (proj2 (chunk_payload_cleanup
                         (script (62 * 60 * 1000) (fun _ => "ACTIVE")
                                 (fun n => inr (" text of " ++ n ++ " ")))
                         minutes_25 5)
                  "/audio/talk.mp3" world0 report w' Hrun Hsome)
        as (chunks & w1 & results & w2 & w3 & worker_calls & cleanup_calls
            & Hsplit & _ & _ & _ & _ & _ & _ & _ & _ & _ & _ & Hremovals
            & Hgone).
      exists report, w', chunks, cleanup_calls.
      split; [reflexivity|].
      vm_compute in Hsplit. injection Hsplit as <- _.
      split; [reflexivity|]. split; [exact Hremovals|].
      intros chunk Hin. apply (Hgone (fun _ _ => eq_refl) chunk Hin).
      destruct Hin as [<-|[<-|[<-|[]]]]; discriminate.
    + vm_compute in Hrun. discriminate Hrun.
    + vm_compute in Hrun. discriminate Hrun.
Defined.


Lemma transcribe_chunk_result_ok_witness :
  ∃ r w',
    transcribe_chunk failing_service 3 first_chunk 0 3 world_split = Ret r w'
    ∧ success r = false
    ∧ result_ok r.
Proof.
  destruct (transcribe_chunk failing_service 3 first_chunk 0 3 world_split)
    as [r w'|e w'|] eqn:Hrun.
  - exists r, w'. split; [reflexivity|]. split.
    + vm_compute in Hrun. injection Hrun as <- _. reflexivity.
    + exact (transcribe_chunk_result_ok failing_service 3 first_chunk 0 3
                                        world_split r w' Hrun).
  - vm_compute in Hrun. discriminate.
  - vm_compute in Hrun. discriminate.
Defined.


(** * Further properties *)

(** ** Line breaks and words in the merged text *)

Lemma replace_from_absent old new s :
  PyStr.contains old s = false → PyStr.replace_from old new 0 s = s.
Proof.
  induction s as [|c s IH]; [done|]. cbn [PyStr.contains PyStr.replace_from].
  intros Hc. apply orb_false_iff in Hc as [Hp Hs].
  rewrite Hp. by rewrite IH.
Qed.

Lemma nl3_chars : PyStr.nl3 = String "010" (String "010" (String "010" "")).
Proof. reflexivity. Qed.

Lemma nl2_app s : PyStr.nl2 ++ s = String "010" (String "010" s).
Proof. reflexivity. Qed.

Lemma prefix_nl3 s :
  String.prefix PyStr.nl3 s = true →
  ∃ rest, s = String "010" (String "010" (String "010" rest)).
Proof.
  rewrite nl3_chars.
  destruct s as [|c1 [|c2 [|c3 rest]]]; cbn [String.prefix];
    try discriminate;
    repeat (destruct (ascii_dec _ _) as [<-|]; try discriminate).
  eauto.
Qed.

Lemma without_breaks_app s t :
  without_breaks (s ++ t) = without_breaks s ++ without_breaks t.
Proof.
  induction s as [|c s IH]; [done|].
  change (String c s ++ t) with (String c (s ++ t)).
  cbn [without_breaks]. rewrite IH. by destruct (Ascii.eqb c "010").
Qed.

Lemma without_breaks_nl s : without_breaks (String "010" s) = without_breaks s.
Proof. reflexivity. Qed.

Lemma without_breaks_replace s :
  ∀ k, breaks_first k s = true →
       without_breaks (PyStr.replace_from PyStr.nl3 PyStr.nl2 k s)
       = without_breaks s.
Proof.
  induction s as [|c s IH]; intros k Hk; [done|].
  destruct k as [|k].
  - cbn [PyStr.replace_from].
    destruct (String.prefix PyStr.nl3 (String c s)) eqn:Hp.
    + apply prefix_nl3 in Hp as [rest Hs]. injection Hs as -> ->.
      rewrite nl2_app. change (String.length PyStr.nl3 - 1) with 2.
      rewrite !without_breaks_nl, (IH 2) by done.
      by rewrite !without_breaks_nl.
    + cbn [without_breaks]. by rewrite (IH 0).
  - cbn [breaks_first] in Hk. apply andb_true_iff in Hk as [Hc Hk].
    cbn [PyStr.replace_from without_breaks]. rewrite Hc. by apply IH.
Qed.

Lemma join_cons sep x y ys :
  PyStr.join sep (x :: y :: ys) = x ++ sep ++ PyStr.join sep (y :: ys).
Proof. reflexivity. Qed.

Lemma without_breaks_join parts :
  without_breaks (PyStr.join PyStr.nl2 parts)
  = String.concat "" (map without_breaks parts).
Proof.
  induction parts as [|x [|y ys] IH]; [done|done|].
  rewrite join_cons, without_breaks_app, nl2_app, !without_breaks_nl, IH.
  reflexivity.
Qed.

Lemma count_words_nl b s :
  PyStr.count_words b (String "010" s) = PyStr.count_words false s.
Proof. reflexivity. Qed.

Lemma count_words_app_break s :
  ∀ b t, PyStr.count_words b (s ++ String "010" t)
         = PyStr.count_words b s + PyStr.count_words false t.
Proof.
  induction s as [|c s IH]; intros b t; [done|].
  change (String c s ++ String "010" t) with (String c (s ++ String "010" t)).
  cbn [PyStr.count_words]. destruct (PyStr.is_space c); rewrite IH; lia.
Qed.

Lemma count_words_replace s :
  ∀ k b, k = 0 ∨ b = false →
         breaks_first k s = true →
         PyStr.count_words b (PyStr.replace_from PyStr.nl3 PyStr.nl2 k s)
         = PyStr.count_words b s.
Proof.
  induction s as [|c s IH]; intros k b Hkb Hk; [done|].
  destruct k as [|k].
  - cbn [PyStr.replace_from].
    destruct (String.prefix PyStr.nl3 (String c s)) eqn:Hp.
    + apply prefix_nl3 in Hp as [rest Hs]. injection Hs as -> ->.
      rewrite nl2_app. change (String.length PyStr.nl3 - 1) with 2.
      rewrite !count_words_nl, (IH 2 false) by auto.
      by rewrite !count_words_nl.
    + cbn [PyStr.count_words].
      destruct (PyStr.is_space c); by rewrite (IH 0) by auto.
  - destruct Hkb as [Hk0| ->]; [done|].
    cbn [breaks_first] in Hk. apply andb_true_iff in Hk as [Hc Hk].
    apply Ascii.eqb_eq in Hc as ->.
    cbn [PyStr.replace_from]. rewrite count_words_nl. apply IH; auto.
Qed.

Lemma split_len_join parts :
  PyStr.split_len (PyStr.join PyStr.nl2 parts)
  = list_sum (map PyStr.split_len parts).
Proof.
  unfold PyStr.split_len.
  induction parts as [|x [|y ys] IH]; [done|cbn; lia|].
  rewrite join_cons, nl2_app, count_words_app_break, count_words_nl, IH.
  reflexivity.
Qed.

Lemma prefix_nl3_intro rest :
  String.prefix PyStr.nl3 (String "010" (String "010" (String "010" rest)))
  = true.
Proof.
  rewrite nl3_chars. cbn [String.prefix].
  destruct (ascii_dec "010" "010") as [_|Hne]; [|done]. by destruct rest.
Qed.

Lemma starts_with_break_space rest : starts_with_space (String "010" rest) = true.
Proof. reflexivity. Qed.

(** Two tidy texts meet at a seam of exactly two line breaks. *)
Lemma seam_has_no_triple_break a :
  ∀ b, a ≠ "" →
       ends_with_space a = false →
       PyStr.contains PyStr.nl3 a = false →
       starts_with_space b = false →
       PyStr.contains PyStr.nl3 b = false →
       PyStr.contains PyStr.nl3 (a ++ PyStr.nl2 ++ b) = false.
Proof.
  induction a as [|c a IH]; intros b Hne Hend Ha Hstart Hb; [done|].
  change (String c a ++ PyStr.nl2 ++ b)
    with (String c (a ++ PyStr.nl2 ++ b)).
  cbn [PyStr.contains] in Ha |- *.
  apply orb_false_iff in Ha as [Hpa Hca].
  apply orb_false_iff. split.
  - apply not_true_is_false. intros Hp.
    apply prefix_nl3 in Hp as [rest Hs]. injection Hs as -> Hs.
    destruct a as [|c1 [|c2 a]].
    + done.
    + change (String c1 "" ++ PyStr.nl2 ++ b)
        with (String c1 (PyStr.nl2 ++ b)) in Hs.
      injection Hs as -> _. done.
    + change (String c1 (String c2 a) ++ PyStr.nl2 ++ b)
        with (String c1 (String c2 (a ++ PyStr.nl2 ++ b))) in Hs.
      injection Hs as -> -> _.
      by rewrite prefix_nl3_intro in Hpa.
  - destruct a as [|c1 a].
    + change ("" ++ PyStr.nl2 ++ b) with (PyStr.nl2 ++ b). rewrite nl2_app.
      cbn [PyStr.contains]. rewrite Hb.
      destruct (String.prefix PyStr.nl3 (String "010" (String "010" b))) eqn:Hp1.
      { apply prefix_nl3 in Hp1 as [rest Hs]. injection Hs as ->.
        by rewrite starts_with_break_space in Hstart. }
      destruct (String.prefix PyStr.nl3 (String "010" b)) eqn:Hp2; [|done].
      apply prefix_nl3 in Hp2 as [rest Hs]. injection Hs as ->.
      by rewrite starts_with_break_space in Hstart.
    + by apply IH.
Qed.

Lemma starts_with_space_app a b :
  a ≠ "" → starts_with_space (a ++ b) = starts_with_space a.
Proof. by destruct a. Qed.

Lemma join_tidy parts :
  Forall tidy parts →
  PyStr.contains PyStr.nl3 (PyStr.join PyStr.nl2 parts) = false
  ∧ starts_with_space (PyStr.join PyStr.nl2 parts) = false.
Proof.
  induction parts as [|x [|y ys] IH]; intros Hall.
  - done.
  - apply Forall_cons in Hall as [(_ & Hs & _ & Hc) _]. done.
  - apply Forall_cons in Hall as [(Hne & Hs & He & Hc) Hall].
    destruct (IH Hall) as [IHc IHs].
    rewrite join_cons. split.
    + by apply seam_has_no_triple_break.
    + by rewrite starts_with_space_app.
Qed.

Section MergeText.

Context {time : Type} `{Clock time}.

Implicit Types results : list (ChunkResult time).

Lemma sum_word_counts_total results :
  sum_word_counts results
  = list_sum (map (fun r => default 0 (word_count r)) results).
Proof.
  unfold sum_word_counts.
  assert (Hacc : ∀ n, fold_left (fun acc r => acc + default 0 (word_count r))
                                results n
                      = n + list_sum (map (fun r => default 0 (word_count r)) results)).
  { induction results as [|r results IH]; intros n; cbn; [unfold list_sum; cbn; lia|].
    rewrite IH. unfold list_sum. cbn. lia. }
  by rewrite Hacc.
Qed.

(** X1: a failed result anywhere in the list changes nothing that
    [merge_transcriptions] computes from the successes: the outcome, the
    text, the total of words, the sum of the processing times and the
    number of successes are those of the list without it; only
    [total_chunks] and [failed_chunks] grow by one. So the seconds that a
    failed chunk took, and any text it carries, never reach the report. *)
Theorem merge_skips_failed_result l1 l2 (r : ChunkResult time) :
  success r = false →
  let with_r := merge_transcriptions (l1 ++ r :: l2) in
  let without_r := merge_transcriptions (l1 ++ l2) in
  report_success with_r = report_success without_r
  ∧ report_transcript with_r = report_transcript without_r
  ∧ total_words with_r = total_words without_r
  ∧ total_processing_time with_r = total_processing_time without_r
  ∧ successful_chunks with_r = successful_chunks without_r
  ∧ (report_success with_r = true →
     total_chunks with_r = S <$> total_chunks without_r
     ∧ failed_chunks with_r = S <$> failed_chunks without_r).
Proof.
  intros Hr. cbv zeta.
  assert (Hs : List.filter success (l1 ++ r :: l2)
               = List.filter success (l1 ++ l2)).
  { rewrite !List.filter_app. cbn. by rewrite Hr. }
  assert (Hf : length (List.filter (fun r => negb (success r)) (l1 ++ r :: l2))
               = S (length (List.filter (fun r => negb (success r)) (l1 ++ l2)))).
  { rewrite !List.filter_app, !length_app. cbn. rewrite Hr. cbn. lia. }
  destruct (List.filter success (l1 ++ l2)) as [|r0 rest] eqn:E.
  - rewrite !merge_none by congruence. cbn. by repeat split.
  - rewrite !merge_some by congruence. cbn. rewrite Hs, Hf, E.
    repeat split. f_equal. rewrite !length_app. cbn. lia.
Qed.

(** X2: [merge_transcriptions] adds and removes line breaks only: with
    the line breaks taken out, the merged text is the transcripts of the
    successful results, in list order, one after the other, with their line
    breaks taken out. No character of a transcript is lost, and none is
    added, by the join and the clean-up of triple line breaks. *)
Theorem merge_changes_line_breaks_only results :
  without_breaks (report_transcript (merge_transcriptions results))
  = String.concat ""
      (map (fun r => without_breaks (transcript r))
           (List.filter success results)).
Proof.
  rewrite merge_transcript. unfold merged_text, PyStr.replace.
  rewrite without_breaks_replace by done.
  rewrite without_breaks_join. by rewrite map_map.
Qed.

(** The total of the word counts is the number of words of the merged
    text, when every successful result counts the words of its own
    transcript. *)
Lemma merge_words_of_text results :
  (∀ r, In r results → success r = true →
        word_count r = Some (PyStr.split_len (transcript r))) →
  existsb success results = true →
  total_words (merge_transcriptions results)
  = Some (PyStr.split_len (report_transcript (merge_transcriptions results))).
Proof.
  intros Hwc Hex.
  rewrite merge_some
    by (intros F; apply filter_success_nil in F; congruence).
  cbn. f_equal. unfold merged_text, PyStr.replace, PyStr.split_len.
  rewrite count_words_replace by auto.
  fold (PyStr.split_len (PyStr.join PyStr.nl2
          (map transcript (List.filter success results)))).
  rewrite split_len_join, sum_word_counts_total, map_map. f_equal.
  apply map_ext_in. intros r Hr. apply List.filter_In in Hr as [Hin Hs].
  by rewrite (Hwc r Hin Hs).
Qed.

(** X3: when every successful result counts the words of its own
    transcript (as [transcribe_chunk] does) and one result at least
    succeeded, [total_words] is the number of words of the merged text
    itself, which is the sum of the numbers of words of the successful
    transcripts: joining with two line breaks and replacing triple line
    breaks neither glue two words together nor split one. *)
Theorem merge_total_words_counts_text results :
  (∀ r, In r results → success r = true →
        word_count r = Some (PyStr.split_len (transcript r))) →
  existsb success results = true →
  total_words (merge_transcriptions results)
  = Some (PyStr.split_len (report_transcript (merge_transcriptions results)))
  ∧ PyStr.split_len (report_transcript (merge_transcriptions results))
    = list_sum (map (fun r => PyStr.split_len (transcript r))
                 (List.filter success results)).
Proof.
  intros Hwc Hex. split; [by apply merge_words_of_text|].
  rewrite merge_transcript. unfold merged_text, PyStr.replace, PyStr.split_len.
  rewrite count_words_replace by auto.
  fold (PyStr.split_len (PyStr.join PyStr.nl2
          (map transcript (List.filter success results)))).
  by rewrite split_len_join, map_map.
Qed.

(** When the join has no three line breaks in a row, the replacement
    leaves it as it is. *)
Lemma merge_plain_join results :
  PyStr.contains PyStr.nl3
    (PyStr.join PyStr.nl2 (map transcript (List.filter success results)))
  = false →
  report_transcript (merge_transcriptions results)
  = PyStr.join PyStr.nl2 (map transcript (List.filter success results)).
Proof.
  intros Hfree. rewrite merge_transcript. unfold merged_text, PyStr.replace.
  by apply replace_from_absent.
Qed.

(** X4: for successful transcripts as [transcribe_chunk] leaves them
    when the service answered with something to read (not empty, no white
    space at either end) and without three line breaks in a row inside,
    the replacement in [merge_transcriptions] finds nothing to do: the
    merged text is the plain join with two line breaks, and it has no three
    line breaks in a row. *)
Theorem merge_tidy_seams results :
  (∀ r, In r results → success r = true → tidy (transcript r)) →
  report_transcript (merge_transcriptions results)
  = PyStr.join PyStr.nl2 (map transcript (List.filter success results))
  ∧ PyStr.contains PyStr.nl3 (report_transcript (merge_transcriptions results))
    = false.
Proof.
  intros Htidy.
  assert (Hparts : Forall tidy (map transcript (List.filter success results))).
  { apply Forall_map, Forall_forall. intros r Hr.
    apply list_elem_of_In, List.filter_In in Hr as [Hin Hs]. by apply Htidy. }
  destruct (join_tidy _ Hparts) as [Hfree _].
  rewrite merge_transcript. unfold merged_text, PyStr.replace.
  rewrite replace_from_absent by done. by split.
Qed.

End MergeText.

(** ** White space at the ends of a stripped text *)

Lemma lstrip_start s : starts_with_space (PyStr.lstrip s) = false.
Proof.
  induction s as [|c s IH]; [done|]. cbn [PyStr.lstrip].
  destruct (PyStr.is_space c) eqn:Hc; [done|]. cbn. exact Hc.
Qed.

Lemma rstrip_end s : ends_with_space (PyStr.rstrip s) = false.
Proof.
  induction s as [|c s IH]; [done|]. cbn [PyStr.rstrip].
  destruct (PyStr.rstrip s) as [|c' r] eqn:Hr.
  - destruct (PyStr.is_space c) eqn:Hc; [done|]. cbn. exact Hc.
  - exact IH.
Qed.

Lemma rstrip_start s :
  starts_with_space s = false → starts_with_space (PyStr.rstrip s) = false.
Proof.
  destruct s as [|c s]; [done|]. cbn [PyStr.rstrip starts_with_space].
  intros Hc. destruct (PyStr.rstrip s); [by rewrite Hc|exact Hc].
Qed.

Lemma strip_ends s :
  starts_with_space (PyStr.strip s) = false
  ∧ ends_with_space (PyStr.strip s) = false.
Proof.
  unfold PyStr.strip. split; [|apply rstrip_end].
  apply rstrip_start, lstrip_start.
Qed.

(** ** The calls of the worker and of the loop over the chunks *)

Lemma uploads_after_upload evs :
  Forall (fun e => after_upload e = true) evs → uploads evs = [].
Proof.
  induction 1 as [|e evs He _ IH]; [done|].
  unfold uploads in *. cbn. rewrite IH. by destruct e.
Qed.

Lemma uploads_app evs evs' :
  uploads (evs ++ evs') = (uploads evs ++ uploads evs')%list.
Proof. apply omap_app. Qed.

Lemma pacing_after_upload evs :
  Forall (fun e => after_upload e = true) evs →
  List.filter is_pacing evs = [].
Proof.
  induction 1 as [|e evs He _ IH]; [done|].
  cbn. rewrite IH.
  destruct e as [|n| | | | | | | | |]; try done.
  by do 6 (destruct n as [|n]; try done).
Qed.

Section WorkerTrace.

Context {time : Type} `{Clock time} (env : Env time).

Lemma wait_processing_calls fuel :
  ∀ audio_file w,
    match wait_processing env fuel audio_file w with
    | Ret _ w' =>
        ∃ evs, appended w w' evs ∧ Forall (fun e => after_upload e = true) evs
    | Raise _ w' =>
        ∃ evs, appended w w' evs ∧ Forall (fun e => after_upload e = true) evs
    | OutOfFuel => True
    end.
Proof.
  induction fuel as [|fuel IH]; intros audio_file w; simpl.
  - destruct (String.eqb _ _); [done|].
    exists []. split; [apply appended_refl|done].
  - destruct (String.eqb _ _).
    + unfold mbind, M_bind, time_sleep, genai_get_file, call.
      destruct (get_file env _ _) as [e|audio_file'].
      * exists [EvSleep 5; EvGetFile (name audio_file)].
        split; [|by repeat constructor].
        unfold appended. simpl. by rewrite <- app_assoc.
      * specialize (IH audio_file'
                       (log_event (EvGetFile (name audio_file))
                                  (log_event (EvSleep 5) w))).
        destruct (wait_processing env fuel audio_file' _) as [f' w'|e w'|];
          [| |done];
          destruct IH as (evs & Happ & Hev);
          exists ([EvSleep 5; EvGetFile (name audio_file)] ++ evs)%list;
          (split; [|by repeat constructor]);
          unfold appended in *; rewrite Happ; simpl;
          by rewrite <- !app_assoc.
    + exists []. split; [apply appended_refl|done].
Qed.

(** The calls of one [transcribe_chunk]: the clock, the upload of the
    chunk, then only polls, [generate_content], [delete_file] and the
    clock. *)
Lemma transcribe_chunk_try_calls fuel chunk_path start_ms end_ms i n w :
  match transcribe_chunk_try env fuel chunk_path start_ms end_ms i n w with
  | Ret _ w' =>
      ∃ evs, appended w w' (EvTime :: EvUploadFile chunk_path :: evs)
             ∧ Forall (fun e => after_upload e = true) evs
  | _ => True
  end.
Proof.
  unfold transcribe_chunk_try, try_except, transcribe_chunk_body.
  unfold mbind, M_bind, time_time, genai_upload_file, call. simpl.
  assert (Hhead : ∀ w1 evs,
             appended (log_event (EvUploadFile chunk_path) (log_event EvTime w))
                      w1 evs →
             appended w w1 (EvTime :: EvUploadFile chunk_path :: evs)).
  { intros w1 evs Happ. unfold appended in *. rewrite Happ. simpl.
    by rewrite <- !app_assoc. }
  destruct (upload_file env _ chunk_path) as [e|audio_file].
  { exists []. split; [apply Hhead, appended_refl|done]. }
  pose proof (wait_processing_calls fuel audio_file
                (log_event (EvUploadFile chunk_path) (log_event EvTime w)))
    as Hwait.
  destruct (wait_processing env fuel audio_file _) as [ready w1|e w1|];
    [| |done].
  2:{ destruct Hwait as (evs & Happ & Hev). exists evs. by split; [apply Hhead|]. }
  destruct Hwait as (evs & Happ & Hev).
  destruct (String.eqb (state_name ready) "FAILED").
  { exists evs. by split; [apply Hhead|]. }
  unfold model_generate_content, genai_delete_file, response_text, call.
  destruct (generate_content env _ _ ready) as [e|response].
  { exists (evs ++ [EvGenerateContent (name ready)])%list. split.
    - apply Hhead. unfold appended in *. simpl in *. rewrite Happ. by rewrite <- !app_assoc.
    - apply Forall_app. by repeat constructor. }
  simpl. destruct (delete_file env _ _) as [e|[]].
  { exists (evs ++ [EvGenerateContent (name ready); EvDeleteFile (name ready)])%list.
    split.
    - apply Hhead. unfold appended in *. simpl in *. rewrite Happ. by rewrite <- !app_assoc.
    - apply Forall_app. by repeat constructor. }
  simpl.
  assert (Hall : ∃ evs',
             appended w
               (log_event EvTime
                  (log_event (EvDeleteFile (name ready))
                     (log_event (EvGenerateContent (name ready)) w1)))
               (EvTime :: EvUploadFile chunk_path :: evs')
             ∧ Forall (fun e => after_upload e = true) evs').
  { exists (evs ++ [EvGenerateContent (name ready);
                    EvDeleteFile (name ready); EvTime])%list. split.
    - apply Hhead. unfold appended in *. simpl in *. rewrite Happ. by rewrite <- !app_assoc.
    - apply Forall_app. by repeat constructor. }
  destruct (text response) as [e|answer]; simpl; [exact Hall|].
  by destruct answer.
Qed.

Lemma transcribe_chunk_calls fuel chunk_path start_ms end_ms i n w :
  match transcribe_chunk env fuel (chunk_path, start_ms, end_ms) i n w with
  | Ret _ w' =>
      ∃ evs, appended w w' (EvTime :: EvUploadFile chunk_path :: evs)
             ∧ Forall (fun e => after_upload e = true) evs
  | _ => True
  end.
Proof.
  destruct (transcribe_chunk_start env fuel chunk_path start_ms end_ms i n w)
    as [(e & _ & ->)|(_ & ->)]; [done|].
  apply transcribe_chunk_try_calls.
Qed.

(** A result of [transcribe_chunk] is as the worker builds it. *)
Lemma exit_path_worker_result chunk_path start_ms end_ms i evs
    (r : ChunkResult time) :
  exit_path start_ms end_ms i evs r →
  worker_result (chunk_path, start_ms, end_ms) r.
Proof.
  intros Hpath. destruct Hpath; (split; [done|]); split;
    try (split; cbn; intros; try discriminate; eauto).
  all: cbn; try discriminate.
  - apply strip_ends.
  - split; [apply strip_ends|]. split; [done|]. by eexists.
Qed.

End WorkerTrace.

Section OrchestratorMore.

Context {time : Type} `{Clock time} (env : Env time) (self : Transcriber).

Lemma worker_block_no_pacing chunk block :
  worker_block chunk block → List.filter is_pacing block = [].
Proof. intros (evs & -> & Hev). cbn. by apply pacing_after_upload. Qed.

Lemma worker_block_uploads chunk block :
  worker_block chunk block → uploads block = [chunk.1.1].
Proof.
  intros (evs & -> & Hev).
  change (uploads (EvTime :: EvUploadFile chunk.1.1 :: evs))
    with (chunk.1.1 :: uploads evs).
  by rewrite (uploads_after_upload _ Hev).
Qed.

Lemma paced_cons block blocks :
  paced (block :: blocks)
  = (block ++ (if blocks is [] then [] else [EvSleep 2]) ++ paced blocks)%list.
Proof. destruct blocks; cbn [paced app]; by rewrite ?app_nil_r. Qed.

Lemma uploads_paced chunks blocks :
  Forall2 worker_block chunks blocks →
  uploads (paced blocks) = map (fun c : Chunk => c.1.1) chunks.
Proof.
  induction 1 as [|chunk block chunks blocks Hblock _ IH]; [done|].
  rewrite paced_cons, !uploads_app, IH, (worker_block_uploads _ _ Hblock).
  by destruct blocks.
Qed.

Lemma pacing_paced chunks blocks :
  Forall2 worker_block chunks blocks →
  length (List.filter is_pacing (paced blocks)) = pred (length chunks).
Proof.
  induction 1 as [|chunk block chunks blocks Hblock Hrest IH]; [done|].
  rewrite paced_cons, !List.filter_app, !length_app, IH,
    (worker_block_no_pacing _ _ Hblock).
  destruct Hrest; cbn; lia.
Qed.

(** The loop over the chunks, from index [i] on: one result per chunk, in
    the order of the chunks and built by the worker for that chunk; its
    calls are those of the workers, chunk by chunk, with a pacing delay
    after the calls of every worker but the last. *)
Lemma transcribe_chunks_calls fuel total :
  ∀ chunks i acc w,
    i + length chunks = total →
    match transcribe_chunks env fuel total i chunks acc w with
    | Ret results w' =>
        ∃ rs blocks,
          results = (acc ++ rs)%list
          ∧ Forall2 worker_result chunks rs
          ∧ appended w w' (paced blocks)
          ∧ Forall2 worker_block chunks blocks
    | _ => True
    end.
Proof.
  induction chunks as [|[[chunk_path start_ms] end_ms] chunks IH];
    intros i acc w Htotal.
  - simpl. exists [], []. rewrite app_nil_r.
    repeat split; [constructor|apply appended_refl|constructor].
  - cbn [transcribe_chunks]. unfold mbind, M_bind.
    pose proof (transcribe_chunk_exit env fuel chunk_path start_ms end_ms i total w)
      as Hexit.
    pose proof (transcribe_chunk_calls env fuel chunk_path start_ms end_ms i total w)
      as Hcalls.
    destruct (transcribe_chunk env fuel _ i total w) as [r w1| |];
      [|done|done].
    destruct Hexit as (evs0 & _ & _ & _ & Hpath).
    destruct Hcalls as (evs1 & Happ1 & Hev1).
    apply (exit_path_worker_result chunk_path) in Hpath.
    cbn [length] in Htotal.
    assert (Hpace : ∃ w2,
               (if (Z.of_nat i <? Z.of_nat total - 1)%Z
                then time_sleep 2 else mret tt) w1 = Ret tt w2
               ∧ appended w1 w2 (if chunks is [] then [] else [EvSleep 2])).
    { destruct (Z.ltb_spec (Z.of_nat i) (Z.of_nat total - 1)) as [Hlt|Hge].
      - exists (log_event (EvSleep 2) w1). split; [done|].
        destruct chunks; [cbn in Htotal; lia|done].
      - exists w1. split; [done|].
        destruct chunks; [apply appended_refl|cbn in Htotal; lia]. }
    destruct Hpace as (w2 & -> & Happ2).
    specialize (IH (i + 1) (acc ++ [r])%list w2 ltac:(lia)).
    destruct (transcribe_chunks env fuel total (i + 1) chunks _ w2)
      as [results w3| |]; [|done|done].
    destruct IH as (rs & blocks & -> & Hrs & Happ3 & Hblocks).
    exists (r :: rs), ((EvTime :: EvUploadFile chunk_path :: evs1) :: blocks).
    split; [by rewrite <- app_assoc|]. split; [by constructor|].
    split.
    + rewrite paced_cons.
      eapply appended_trans; [exact Happ1|].
      eapply appended_trans; [|exact Happ3].
      destruct Hblocks; exact Happ2.
    + constructor; [by exists evs1|done].
Qed.

Lemma remote_free_uploads evs :
  Forall (fun e => remote_event e = false) evs →
  uploads evs = [] ∧ List.filter is_pacing evs = [].
Proof.
  induction 1 as [|e evs He _ [IHu IHp]]; [done|].
  destruct e; try discriminate He;
    (split; [exact IHu|cbn [List.filter is_pacing]; exact IHp]).
Qed.

(** What [split_audio] does to the local files: its loop writes the files
    of the chunks it appends and nothing else, with local calls only. *)
Lemma split_loop_files fuel :
  ∀ temp_dir D start number acc w,
    match split_loop env self fuel temp_dir D start number acc w with
    | Ret chunks w' =>
        ∃ new evs,
          chunks = (acc ++ new)%list
          ∧ files w' = files w ∪ list_to_set (map (fun c : Chunk => c.1.1) new)
          ∧ appended w w' evs
          ∧ Forall (fun e => remote_event e = false) evs
    | _ => True
    end.
Proof.
  induction fuel as [|fuel IH]; intros temp_dir D start number acc w; simpl.
  - destruct (_ <? _)%Z; [done|].
    exists [], []. rewrite app_nil_r. cbn.
    split; [done|]. split; [set_solver|]. split; [apply appended_refl|done].
  - destruct (_ <? _)%Z.
    + unfold mbind, M_bind, audio_export, call.
      destruct (export env _ _ _ _) as [e|[]]; [done|].
      match goal with
      | |- context [split_loop _ _ _ _ _ _ _ ?acc' ?w0] =>
          specialize (IH temp_dir D
                         (Z.min (start + chunk_duration_ms self) D)
                         (number + 1) acc' w0)
      end.
      destruct (split_loop env self fuel temp_dir D _ _ _ _)
        as [chunks w'| |]; [|done|done].
      destruct IH as (new & evs & -> & Hfiles & Happ & Hev).
      eexists (_ :: new), (_ :: evs).
      split; [by rewrite <- app_assoc|]. split; [|split].
      * rewrite Hfiles. cbn. set_solver.
      * unfold appended in *. rewrite Happ. cbn. by rewrite <- app_assoc.
      * by constructor.
    + exists [], []. rewrite app_nil_r. cbn.
      split; [done|]. split; [set_solver|]. split; [apply appended_refl|done].
Qed.

Lemma split_audio_effect fuel audio_file_path w :
  match split_audio env self fuel audio_file_path w with
  | Ret chunks w' =>
      ((files w' = files w ∧ ∃ D, chunks = [(audio_file_path, 0%Z, D)])
       ∨ (files w'
          = files w ∪ list_to_set (map (fun c : Chunk => c.1.1) chunks)))
      ∧ ∃ evs, appended w w' evs
               ∧ Forall (fun e => remote_event e = false) evs
  | _ => True
  end.
Proof.
  unfold split_audio, mbind, M_bind, audio_from_file, call.
  destruct (from_file env _ _) as [e|D]; [done|].
  destruct (Z.leb_spec D (chunk_duration_ms self)) as [Hle|Hgt].
  - split; [left; eauto|].
    exists [EvFromFile audio_file_path]. split; [done|by repeat constructor].
  - unfold tempfile_mkdtemp, call. cbn [trace log_event].
    destruct (mkdtemp env _) as [e|d]; [done|].
    match goal with
    | |- context [split_loop _ _ _ _ _ _ _ _ ?w0] =>
        pose proof (split_loop_files fuel d D 0 1 [] w0) as Hloop
    end.
    destruct (split_loop env self fuel d D 0 1 [] _) as [chunks w'| |];
      [|done|done].
    destruct Hloop as (new & evs & -> & Hfiles & Happ & Hev).
    split; [right; exact Hfiles|].
    exists (EvFromFile audio_file_path :: EvMkdtemp :: evs).
    split; [|by repeat constructor].
    unfold appended in *. rewrite Happ. cbn. by rewrite <- !app_assoc.
Qed.

Lemma merge_chunk_results (results : list (ChunkResult time)) :
  chunk_results (merge_transcriptions results) = Some results.
Proof.
  unfold merge_transcriptions.
  destruct (List.filter success results); [done|].
  by destruct (fold_left _ _ _) as [[? ?] ?].
Qed.

Lemma merge_report_ok (results : list (ChunkResult time)) seconds :
  report_ok (with_wall_clock (merge_transcriptions results) seconds).
Proof.
  destruct (List.filter success results) as [|r rest] eqn:F.
  - rewrite merge_none by done. split; cbn; [eauto|discriminate].
  - rewrite merge_some by congruence.
    split; cbn; [discriminate|]. intros _. by repeat split.
Qed.

(** X5: an exception leaves [transcribe_long_audio] only from the
    statements that stand before its [try]: from the console, when it
    refuses the banner, the rule or the line with the size of the file, or
    from [os.path.getsize]; by then nothing has been called but the clock,
    once at most. No failure of the audio library, of the temporary
    directory, of the remote service, of a chunk worker or of the removal
    of files gets out, so when the console takes those three lines and the
    size can be read, the function does not raise. Every report it returns
    is well formed: a failure has an empty transcript and a non-empty error
    message, a success has no error message and carries all its counts and
    the list of chunk results. *)
Theorem transcribe_long_audio_reports fuel audio_file_path w :
  match transcribe_long_audio env self fuel audio_file_path w with
  | Ret report _ => report_ok report
  | Raise e w' =>
      raised_before_try env w audio_file_path e w'
      ∧ ¬ (run_announced env w
           ∧ size_shown env (log_event EvTime w) audio_file_path)
  | OutOfFuel => True
  end.
Proof.
  pose proof (transcribe_long_audio_run env self fuel audio_file_path w) as Hcases.
  destruct (transcribe_long_audio env self fuel audio_file_path w)
    as [report w'|e w'|]; [| |done].
  2:{ split; [done|]. intros [[Hbanner Hrule] (size & Hsize & Hline)].
      destruct Hcases as [(_ & [E|E])|(-> & _ & [E|(size' & Hsize' & E)])];
        cbn [trace log_event] in *; congruence. }
  destruct Hcases as [(_ & -> & _)|[(_ & e & w1 & _ & _ & ->)
                                   |(_ & ? & ? & results & ? & ? & _ & _ & _ & _ & ->)]].
  - split; cbn; [eauto|discriminate].
  - split; cbn; [eauto|discriminate].
  - apply merge_report_ok.
Qed.

(** The statements before the [try] do not raise when the console takes
    the banner and the rule and, for a file that is there, the size can be
    read and shown. *)
Lemma not_raised_before_try audio_file_path w e w' :
  run_announced env w →
  (audio_file_path ∈ files w ∪ dirs w →
   size_shown env (log_event EvTime w) audio_file_path) →
  ¬ raised_before_try env w audio_file_path e w'.
Proof.
  intros [Hbanner Hrule] Hshown
    [(_ & [E|E])|(-> & Hthere & [E|(size' & Hsize' & E)])];
    try congruence.
  - destruct (Hshown Hthere) as (size & Hsize & Hline). congruence.
  - destruct (Hshown Hthere) as (size & Hsize & Hline). congruence.
Qed.

(** X6: for a path that does not exist, once the console has taken the
    banner and the rule that open the run, [transcribe_long_audio] returns
    the failure report ["Audio file not found: <path>"], without the key
    [total_processing_time], after reading the clock once and doing nothing
    else: the audio library, the temporary directory and the remote service
    are never called. *)
Theorem missing_file_report fuel audio_file_path w :
  run_announced env w →
  audio_file_path ∉ files w ∪ dirs w →
  transcribe_long_audio env self fuel audio_file_path w
  = Ret (not_found_report audio_file_path) (log_event EvTime w).
Proof.
  intros Hann Hgone.
  destruct (transcribe_long_audio_start env self fuel audio_file_path w)
    as [(e & w' & Hraised & _)|[(_ & _ & ->)|(_ & Hthere & _)]];
    [|done|done].
  by apply not_raised_before_try in Hraised.
Qed.

(** X7: when [split_audio] raises, in a run that got to its [try]
    statement (the console took the banner, the rule and the line with the
    size of the file), [transcribe_long_audio] returns the failure report
    ["Overall transcription error: <message>"] with the wall-clock time up
    to the failure, and does nothing after the failure but read the clock:
    no upload, and no clean-up, so the chunk files already exported and the
    temporary directory stay where they are. *)
Theorem splitter_failure_report fuel audio_file_path w e w1 :
  run_announced env w →
  audio_file_path ∈ files w ∪ dirs w →
  size_shown env (log_event EvTime w) audio_file_path →
  split_audio env self fuel audio_file_path (log_event EvTime w) = Raise e w1 →
  transcribe_long_audio env self fuel audio_file_path w
  = Ret (overall_error_report e
           (tsub (clock env (trace w1)) (clock env (trace w))))
        (log_event EvTime w1).
Proof.
  intros Hann Hthere Hshown Hsplit.
  destruct (transcribe_long_audio_start env self fuel audio_file_path w)
    as [(e' & w' & Hraised & _)|[(_ & Hgone & _)|(_ & _ & _ & ->)]];
    [|done|].
  - by apply not_raised_before_try in Hraised.
  - unfold try_except. by erewrite bind_Raise by exact Hsplit.
Qed.

(** X8: for an existing file, the [total_processing_time] of the report
    that [transcribe_long_audio] returns is the wall-clock time of the run,
    from the clock read on entry to the clock read last, after the
    clean-up; it replaces the sum over the successful chunks that
    [merge_transcriptions] computed, also in the report of a run in which
    every chunk failed. *)
Theorem wall_clock_time fuel audio_file_path w report w' :
  audio_file_path ∈ files w ∪ dirs w →
  transcribe_long_audio env self fuel audio_file_path w = Ret report w' →
  ∃ w_end,
    w' = log_event EvTime w_end
    ∧ total_processing_time report
      = Some (tsub (clock env (trace w_end)) (clock env (trace w))).
Proof.
  intros Hthere Hrun.
  pose proof (transcribe_long_audio_run env self fuel audio_file_path w) as Hcases.
  rewrite Hrun in Hcases.
  destruct Hcases as [(Hgone & _)|[(_ & e & w1 & _ & -> & ->)
                                  |(_ & ? & ? & ? & ? & w3 & _ & _ & _ & -> & ->)]].
  - done.
  - by exists w1.
  - by exists w3.
Qed.

Lemma Forall2_worker_result_In chunks (results : list (ChunkResult time)) r :
  Forall2 worker_result chunks results → In r results →
  ∃ chunk, In chunk chunks ∧ worker_result chunk r.
Proof.
  induction 1 as [|c r0 chunks results Hcr _ IH]; intros Hin; [done|].
  destruct Hin as [->|Hin]; [exists c; split; [by left|done]|].
  destruct (IH Hin) as (chunk & Hc & Hw). exists chunk. split; [by right|done].
Qed.

(** The calls of a run that got as far as merging: the clock and the
    calls of [split_audio]; the calls of the workers, chunk by chunk, with
    the pacing delays between them; the calls of the clean-up loop and the
    clock. *)
Lemma completed_run_blocks fuel audio_file_path w report w' :
  transcribe_long_audio env self fuel audio_file_path w = Ret report w' →
  is_Some (chunk_results report) →
  ∃ chunks w1 results before blocks after,
    split_audio env self fuel audio_file_path (log_event EvTime w)
    = Ret chunks w1
    ∧ chunk_results report = Some results
    ∧ Forall2 worker_result chunks results
    ∧ appended w w' (before ++ paced blocks ++ after)
    ∧ Forall2 worker_block chunks blocks
    ∧ uploads before = [] ∧ List.filter is_pacing before = []
    ∧ uploads after = [] ∧ List.filter is_pacing after = [].
Proof.
  intros Hrun Hsome.
  destruct (completed_run env self _ _ _ _ _ Hrun Hsome)
    as (chunks & w1 & results & w2 & w3 & Hsplit & Hloop & Hclean & -> & ->).
  pose proof (split_audio_effect fuel audio_file_path (log_event EvTime w))
    as Heffect.
  rewrite Hsplit in Heffect. destruct Heffect as (_ & evs1 & Happ1 & Hev1).
  pose proof (transcribe_chunks_calls fuel (length chunks) chunks 0 [] w1
                                      eq_refl) as Hcalls.
  rewrite Hloop in Hcalls.
  destruct Hcalls as (rs & blocks & -> & Hrs & Happ2 & Hblocks).
  destruct (cleanup_chunks_spec env audio_file_path chunks w2)
    as (w3' & evs3 & Hclean' & Happ3 & Hev3 & _).
  rewrite Hclean in Hclean'. injection Hclean' as <-.
  assert (Hfree3 : Forall (fun e => remote_event e = false) evs3)
    by (eapply Forall_impl; [exact Hev3|]; by intros e [_ ?]).
  destruct (remote_free_uploads _ Hev1) as [Hu1 Hp1].
  destruct (remote_free_uploads _ Hfree3) as [Hu3 Hp3].
  exists chunks, w1, rs, ([EvTime] ++ evs1)%list, blocks,
    (evs3 ++ [EvTime])%list.
  split; [done|]. split; [cbn; apply merge_chunk_results|]. split; [done|].
  split; [|split; [done|]].
  - rewrite <- app_assoc.
    eapply appended_trans; [apply appended_log|].
    eapply appended_trans; [exact Happ1|].
    eapply appended_trans; [exact Happ2|].
    eapply appended_trans; [exact Happ3|apply appended_log].
  - rewrite !uploads_app, !List.filter_app, Hu1, Hp1, Hu3, Hp3. done.
Qed.

Lemma completed_run_calls fuel audio_file_path w report w' :
  transcribe_long_audio env self fuel audio_file_path w = Ret report w' →
  is_Some (chunk_results report) →
  ∃ chunks w1 results evs,
    split_audio env self fuel audio_file_path (log_event EvTime w)
    = Ret chunks w1
    ∧ chunk_results report = Some results
    ∧ Forall2 worker_result chunks results
    ∧ appended w w' evs
    ∧ uploads evs = map (fun c : Chunk => c.1.1) chunks
    ∧ length (List.filter is_pacing evs) = pred (length chunks).
Proof.
  intros Hrun Hsome.
  destruct (completed_run_blocks _ _ _ _ _ Hrun Hsome)
    as (chunks & w1 & results & before & blocks & after & Hsplit & Hres & Hrs
        & Happ & Hblocks & Hu1 & Hp1 & Hu3 & Hp3).
  exists chunks, w1, results, (before ++ paced blocks ++ after)%list.
  split; [done|]. split; [done|]. split; [done|]. split; [done|]. split.
  - rewrite !uploads_app, Hu1, Hu3, (uploads_paced _ _ Hblocks).
    cbn. by rewrite app_nil_r.
  - rewrite !List.filter_app, !length_app, Hp1, Hp3,
      (pacing_paced _ _ Hblocks). cbn. lia.
Qed.

(** X9: the [chunk_results] of a report are the results of the chunks
    that [split_audio] returned, one per chunk and in the same order: the
    n-th result is a result as the worker builds it for the n-th chunk and
    carries the window of that chunk. *)
Theorem results_follow_chunks fuel audio_file_path w report w' results :
  transcribe_long_audio env self fuel audio_file_path w = Ret report w' →
  chunk_results report = Some results →
  ∃ chunks w1,
    split_audio env self fuel audio_file_path (log_event EvTime w)
    = Ret chunks w1
    ∧ Forall2 worker_result chunks results
    ∧ map result_range results = map chunk_range chunks.
Proof.
  intros Hrun Hresults.
  destruct (completed_run_calls _ _ _ _ _ Hrun)
    as (chunks & w1 & results' & evs & Hsplit & Hres & Hrs & _);
    [by rewrite Hresults|].
  rewrite Hresults in Hres. injection Hres as <-.
  exists chunks, w1. split; [done|]. split; [done|].
  clear -Hrs. induction Hrs as [|c r chunks results (Hrange & _) _ IH]; [done|].
  cbn. by rewrite Hrange, IH.
Qed.



Lemma successful_run_completed fuel audio_file_path w report w' :
  transcribe_long_audio env self fuel audio_file_path w = Ret report w' →
  report_success report = true →
  is_Some (chunk_results report).
Proof.
  intros Hrun Hok.
  pose proof (transcribe_long_audio_run env self fuel audio_file_path w) as Hcases.
  rewrite Hrun in Hcases.
  destruct Hcases as [(_ & -> & _)|[(_ & e & w1 & _ & _ & ->)
                                   |(_ & ? & ? & results & ? & ? & _ & _ & _ & _ & ->)]];
    [done|done|].
  cbn. rewrite merge_chunk_results. by eexists.
Qed.

(** X12: in the report of a successful run, [total_words] is the number
    of words of the transcript in that report. *)
Theorem total_words_of_run fuel audio_file_path w report w' :
  transcribe_long_audio env self fuel audio_file_path w = Ret report w' →
  report_success report = true →
  total_words report = Some (PyStr.split_len (report_transcript report)).
Proof.
  intros Hrun Hok.
  pose proof (successful_run_completed _ _ _ _ _ Hrun Hok) as Hsome.
  destruct (completed_run_calls _ _ _ _ _ Hrun Hsome)
    as (chunks & w1 & results & evs & _ & Hres & Hrs & _).
  destruct (completed_run env self _ _ _ _ _ Hrun Hsome)
    as (chunks' & w1' & results' & w2 & w3 & _ & _ & _ & _ & ->).
  cbn in Hres, Hok |- *. rewrite merge_chunk_results in Hres.
  injection Hres as ->.
  apply merge_words_of_text.
  - intros r Hin Hs.
    destruct (Forall2_worker_result_In _ _ _ Hrs Hin) as (c & _ & _ & _ & Hw).
    by destruct (Hw Hs) as (_ & _ & ? & _).
  - destruct (existsb success results) eqn:E; [done|].
    rewrite merge_none in Hok by (by apply filter_success_nil). done.
Qed.

(** X13: when the operating system refuses no removal, the files after a
    run that got to the chunks are the files before it without the chunk
    files, the source apart (for a short audio the source is the one
    chunk): every chunk file that [split_audio] wrote is gone, whether its
    chunk was transcribed or failed, and no other file is touched. *)
Theorem completed_run_leaves_no_chunk_file fuel audio_file_path w report w' :
  (∀ h p, remove env h p = inr tt) →
  audio_file_path ∈ files w →
  transcribe_long_audio env self fuel audio_file_path w = Ret report w' →
  is_Some (chunk_results report) →
  ∃ chunks w1,
    split_audio env self fuel audio_file_path (log_event EvTime w)
    = Ret chunks w1
    ∧ files w'
      = files w ∖ (list_to_set (map (fun c : Chunk => c.1.1) chunks)
                   ∖ {[audio_file_path]}).
Proof.
  intros Hos Hin Hrun Hsome.
  destruct (completed_run env self _ _ _ _ _ Hrun Hsome)
    as (chunks & w1 & results & w2 & w3 & Hsplit & Hloop & Hclean & -> & _).
  exists chunks, w1. split; [done|].
  pose proof (split_audio_effect fuel audio_file_path (log_event EvTime w))
    as Heffect.
  rewrite Hsplit in Heffect. destruct Heffect as (Hfiles1 & _).
  pose proof (transcribe_chunks_all env fuel (length chunks) chunks 0 [] w1)
    as Hall.
  rewrite Hloop in Hall. destruct Hall as (_ & [Hfiles2 _] & _).
  destruct (cleanup_chunks_spec env audio_file_path chunks w2)
    as (w3' & evs3 & Hclean' & _ & _ & _ & _ & _ & Hfiles3).
  rewrite Hclean in Hclean'. injection Hclean' as <-.
  cbn [files log_event] in *. rewrite (Hfiles3 Hos), Hfiles2.
  destruct Hfiles1 as [[-> [D ->]]| ->]; [done|].
  clear -Hin.
  generalize (list_to_set (map (fun c : Chunk => c.1.1) chunks) : gset string).
  intros paths. apply set_eq. intros p.
  destruct (decide (p = audio_file_path)); set_solver.
Qed.

(** X14: when [split_audio] returns, the payload of every chunk it
    lists is a file that exists, and every file that existed before is
    still there: the splitter only adds files. *)
Theorem split_audio_payloads_written fuel audio_file_path w chunks w' :
  audio_file_path ∈ files w →
  split_audio env self fuel audio_file_path w = Ret chunks w' →
  (∀ chunk, In chunk chunks → chunk.1.1 ∈ files w')
  ∧ files w ⊆ files w'.
Proof.
  intros Hin Hsplit.
  pose proof (split_audio_effect fuel audio_file_path w) as Heffect.
  rewrite Hsplit in Heffect. destruct Heffect as (Hfiles & _).
  destruct Hfiles as [[-> [D ->]]| ->].
  - split; [|done]. by intros chunk [<-|[]].
  - split; [|set_solver]. intros chunk Hc.
    apply elem_of_union_r, elem_of_list_to_set, list_elem_of_In, in_map_iff.
    eauto.
Qed.

(** The loop of [split_audio] never ends for a chunk length of 0 ms or
    less: the start of the next window never passes the end of the
    audio. *)
Lemma split_loop_never_ends fuel :
  (∀ h p a b, export env h p a b = inr tt) →
  (chunk_duration_ms self <= 0)%Z →
  ∀ temp_dir D start number chunks w,
    (start < D)%Z →
    split_loop env self fuel temp_dir D start number chunks w = OutOfFuel.
Proof.
  intros Hexport HC.
  induction fuel as [|fuel IH]; intros temp_dir D start number chunks w Hlt;
    simpl; rewrite (proj2 (Z.ltb_lt _ _) Hlt); [done|].
  erewrite bind_Ret by (by apply audio_export_ok).
  apply IH. lia.
Qed.


End OrchestratorMore.

Section WorkerMore.

Context {time : Type} `{Clock time} (env : Env time).

(** X16: a result that [transcribe_chunk] returns carries the window of
    its chunk and is well formed; when it is a success, its transcript has
    no white space at either end, its [word_count] is the number of words
    of that transcript, and it has a processing time. *)
Theorem transcribe_chunk_builds_worker_result fuel chunk i n w r w' :
  transcribe_chunk env fuel chunk i n w = Ret r w' →
  worker_result chunk r.
Proof.
  destruct chunk as [[chunk_path start_ms] end_ms]. intros Hrun.
  pose proof (transcribe_chunk_exit env fuel chunk_path start_ms end_ms i n w)
    as Hexit.
  rewrite Hrun in Hexit. destruct Hexit as (evs & _ & _ & _ & Hpath).
  by eapply exit_path_worker_result.
Qed.



End WorkerMore.

(** ** The report writer *)

Lemma string_app_assoc (s t u : string) : (s ++ t) ++ u = s ++ t ++ u.
Proof.
  induction s as [|c s IH]; [done|].
  change (String c ((s ++ t) ++ u) = String c (s ++ t ++ u)). by rewrite IH.
Qed.

Lemma string_app_nil_r (s : string) : s ++ "" = s.
Proof.
  induction s as [|c s IH]; [done|].
  change (String c (s ++ "") = String c s). by rewrite IH.
Qed.

Lemma write_pieces_app pieces pieces' :
  write_pieces (pieces ++ pieces')
  = match write_pieces pieces with
    | (content, Some e) => (content, Some e)
    | (content, None) =>
        (content ++ (write_pieces pieces').1, (write_pieces pieces').2)
    end.
Proof.
  induction pieces as [|[e|piece] pieces IH]; cbn [app write_pieces].
  - by destruct (write_pieces pieces').
  - done.
  - rewrite IH. destruct (write_pieces pieces) as [content [e|]]; [done|].
    destruct (write_pieces pieces') as [content' failure']. cbn.
    f_equal. symmetry. apply string_app_assoc.
Qed.

Lemma write_pieces_texts pieces :
  Forall (fun piece : exn + string => ∃ s, piece = inr s) pieces →
  (write_pieces pieces).2 = None.
Proof.
  induction 1 as [|piece pieces [s ->] _ IH]; [done|].
  cbn [write_pieces]. by destruct (write_pieces pieces).
Qed.

Lemma contains_here pat rest : PyStr.contains pat (pat ++ rest) = true.
Proof.
  assert (Hp : String.prefix pat (pat ++ rest) = true).
  { induction pat as [|c pat IH]; [by destruct rest|].
    change (String c pat ++ rest) with (String c (pat ++ rest)).
    cbn [String.prefix]. by destruct (ascii_dec c c). }
  destruct (pat ++ rest); cbn [PyStr.contains]; by rewrite Hp.
Qed.

Lemma contains_later pat before s :
  PyStr.contains pat s = true → PyStr.contains pat (before ++ s) = true.
Proof.
  intros Hs. induction before as [|c before IH]; [done|].
  change (String c before ++ s) with (String c (before ++ s)).
  cbn [PyStr.contains]. rewrite IH. apply orb_true_r.
Qed.

Section ReportWriterProofs.

Context {time : Type} `{Clock time} (desk : Desk time).

Implicit Types result : Report time.

Lemma header_pieces_texts result audio_file_path :
  (write_pieces (header_pieces desk result audio_file_path)).2 = None.
Proof.
  apply write_pieces_texts. unfold header_pieces.
  repeat (constructor; [by eexists|]). constructor.
Qed.

(** Without a total of words, the writes stop after the header lines. *)
Lemma write_report_without_total_words result audio_file_path :
  total_words result = None →
  write_pieces (report_pieces desk result audio_file_path)
  = ((write_pieces (header_pieces desk result audio_file_path)).1,
     Some (Exn "Cannot specify ',' with 's'.")).
Proof.
  intros Hwords. unfold report_pieces. rewrite write_pieces_app.
  pose proof (header_pieces_texts result audio_file_path) as Hhead.
  destruct (write_pieces (header_pieces desk result audio_file_path))
    as [content failure]. cbn in Hhead. subst failure.
  unfold total_words_piece. rewrite Hwords. cbn.
  by rewrite string_app_nil_r.
Qed.


Lemma timedelta_text_fits ms :
  (0 <= ms < 86400000 * 1000000000)%Z → ∃ s, timedelta_text ms = inr s.
Proof.
  intros Hms. unfold timedelta_text.
  assert (Hdays : (0 <= ms / 86400000 <= 999999999)%Z).
  { split; [apply Z.div_pos; lia|].
    assert (ms / 86400000 < 1000000000)%Z; [|lia].
    apply Z.div_lt_upper_bound; lia. }
  rewrite (proj2 (Z.ltb_ge _ _)) by lia. eauto.
Qed.

Lemma chunk_pieces_texts i (r : ChunkResult time) :
  printable r →
  Forall (fun piece : exn + string => ∃ s, piece = inr s) (chunk_pieces desk i r).
Proof.
  intros [[s Hs] [e He]]. unfold chunk_pieces. rewrite Hs, He.
  apply Forall_app. split.
  - repeat (constructor; [by eexists|]). constructor.
  - destruct (success r); repeat constructor. by eexists.
Qed.

Lemma details_pieces_texts result :
  (∀ results, chunk_results result = Some results → Forall printable results) →
  (write_pieces (details_pieces desk result)).2 = None.
Proof.
  intros Hprint. apply write_pieces_texts. unfold details_pieces.
  destruct (chunk_results result) as [results|]; [|constructor].
  specialize (Hprint results eq_refl).
  apply Forall_app. split; [repeat (constructor; [by eexists|]); constructor|].
  apply Forall_concat, Forall_forall. intros pieces Hin.
  apply elem_of_lookup_imap in Hin as (i & r & -> & Hr).
  apply chunk_pieces_texts.
  eapply Forall_forall; [exact Hprint|]. by eapply list_elem_of_lookup_2.
Qed.


Section FailedRun.

Context (env : Env time) (self : Transcriber).

Lemma failed_run_has_no_total_words fuel audio_file_path w report w' :
  transcribe_long_audio env self fuel audio_file_path w = Ret report w' →
  report_success report = false →
  total_words report = None.
Proof.
  intros Hrun Hfailed.
  pose proof (transcribe_long_audio_run env self fuel audio_file_path w)
    as Hcases.
  rewrite Hrun in Hcases.
  destruct Hcases as [(_ & -> & _)|[(_ & e & w1 & _ & _ & ->)
                                   |(_ & ? & ? & results & ? & ? & _ & _ & _ & _ & ->)]];
    [done|done|].
  cbn in Hfailed |- *.
  destruct (List.filter success results) as [|r rest] eqn:F.
  - by rewrite merge_none.
  - rewrite merge_some in Hfailed by congruence. discriminate.
Qed.


End FailedRun.

End ReportWriterProofs.

(** ** The further properties on concrete runs *)

Lemma merge_skips_failed_result_witness :
  report_transcript
    (merge_transcriptions
       ([chunk_ok "first" 1] ++ chunk_failed "lost" 5 :: [chunk_ok "third" 2]))
  = report_transcript
      (merge_transcriptions ([chunk_ok "first" 1] ++ [chunk_ok "third" 2]))
  ∧ total_processing_time
      (merge_transcriptions
         ([chunk_ok "first" 1] ++ chunk_failed "lost" 5 :: [chunk_ok "third" 2]))
    = Some 3%Z.
Proof.
  pose proof (merge_skips_failed_result
                [chunk_ok "first" 1] [chunk_ok "third" 2]
                (chunk_failed "lost" 5) eq_refl) as Hskip.
  cbv zeta in Hskip. destruct Hskip as (_ & Htext & _ & Htime & _).
  split; [exact Htext|]. rewrite Htime. reflexivity.
Defined.

Lemma merge_total_words_counts_text_witness :
  let results := [chunk_ok "two words" 1; chunk_failed "lost" 2;
                  chunk_ok "three more words" 1] in
  total_words (merge_transcriptions results) = Some 5
  ∧ PyStr.split_len (report_transcript (merge_transcriptions results)) = 5.
Proof.
  cbv zeta.
  destruct (merge_total_words_counts_text
              [chunk_ok "two words" 1; chunk_failed "lost" 2;
               chunk_ok "three more words" 1]) as [Hwords Hsum].
  - intros r [<-|[<-|[<-|[]]]] Hs; try reflexivity. discriminate Hs.
  - reflexivity.
  - split; [rewrite Hwords|rewrite Hsum]; reflexivity.
Defined.

Lemma merge_tidy_seams_witness :
  PyStr.contains PyStr.nl3
    (report_transcript
       (merge_transcriptions [chunk_ok "first" 1; chunk_ok "second" 1]))
  = false.
Proof.
  apply (merge_tidy_seams [chunk_ok "first" 1; chunk_ok "second" 1]).
  intros r [<-|[<-|[]]] _; (split; [discriminate|]); repeat split; reflexivity.
Defined.

Lemma missing_file_report_witness :
  transcribe_long_audio (answering_service "text") minutes_25 5
                        "/audio/none.mp3" world0
  = Ret (not_found_report "/audio/none.mp3") (log_event EvTime world0).
Proof.
  apply missing_file_report.
  - split; reflexivity.
  - vm_compute. intros Hin. discriminate Hin.
Defined.

Lemma splitter_failure_report_witness :
  ∃ seconds w',
    transcribe_long_audio export_fails_second minutes_25 5 "/audio/talk.mp3"
                          world0
    = Ret (overall_error_report (Exn "disk full") seconds) w'
    ∧ "/tmp/tmpq8x/chunk_001.mp3" ∈ files w'.
Proof.
  destruct (split_audio export_fails_second minutes_25 5 "/audio/talk.mp3"
                        (log_event EvTime world0)) as [chunks w1|e w1|] eqn:Hsplit.
  - vm_compute in Hsplit. discriminate Hsplit.
  - assert (Hthere : "/audio/talk.mp3" ∈ files world0 ∪ dirs world0)
      by (vm_compute; reflexivity).
    assert (Hann : run_announced export_fails_second world0)
      by (split; reflexivity).
    assert (Hshown : size_shown export_fails_second (log_event EvTime world0)
                                "/audio/talk.mp3")
      by (exists 31457280%Z; split; reflexivity).
    pose proof (splitter_failure_report export_fails_second minutes_25 5
                  "/audio/talk.mp3" world0 e w1 Hann Hthere Hshown Hsplit)
      as Hrun.
    vm_compute in Hsplit. injection Hsplit as <- <-.
    eexists _, _. split; [exact Hrun|]. vm_compute. reflexivity.
  - vm_compute in Hsplit. discriminate Hsplit.
Defined.

Lemma wall_clock_time_witness :
  ∃ report w' w_end,
    run_62_minutes = Ret report w'
    ∧ w' = log_event EvTime w_end
    ∧ total_processing_time report
      = Some (Z.of_nat (length (trace w_end)) - 0)%Z.
Proof.
  unfold run_62_minutes.
  destruct (transcribe_long_audio _ _ _ _ _) as [report w'|e w'|] eqn:Hrun.
  - assert (Hthere : "/audio/talk.mp3" ∈ files world0 ∪ dirs world0)
      by (vm_compute; reflexivity).
    destruct (wall_clock_time _ _ _ _ _ _ _ Hthere Hrun) as (w_end & Hw & Ht).
    exists report, w', w_end. split; [reflexivity|]. split; [exact Hw|exact Ht].
  - vm_compute in Hrun. discriminate Hrun.
  - vm_compute in Hrun. discriminate Hrun.
Defined.

Lemma results_follow_chunks_witness :
  ∃ report w' results chunks,
    run_62_minutes = Ret report w'
    ∧ chunk_results report = Some results
    ∧ map result_range results = map chunk_range chunks
    ∧ length chunks = 3.
Proof.
  unfold run_62_minutes.
  destruct (transcribe_long_audio _ _ _ _ _) as [report w'|e w'|] eqn:Hrun.
  - destruct (chunk_results report) as [results|] eqn:Hresults.
    + destruct (results_follow_chunks _ _ _ _ _ _ _ results Hrun Hresults)
        as (chunks & w1 & Hsplit & _ & Hranges).
      exists report, w', results, chunks.
      split; [reflexivity|]. split; [exact Hresults|]. split; [exact Hranges|].
      vm_compute in Hsplit. injection Hsplit as <- _. reflexivity.
    + vm_compute in Hrun. injection Hrun as <- _. discriminate Hresults.
  - vm_compute in Hrun. discriminate Hrun.
  - vm_compute in Hrun. discriminate Hrun.
Defined.



Lemma total_words_of_run_witness :
  ∃ report w',
    run_62_minutes = Ret report w'
    ∧ total_words report = Some (PyStr.split_len (report_transcript report)).
Proof.
  unfold run_62_minutes.
  destruct (transcribe_long_audio _ _ _ _ _) as [report w'|e w'|] eqn:Hrun.
  - exists report, w'. split; [reflexivity|].
    apply (total_words_of_run _ _ _ _ _ _ _ Hrun).
    vm_compute in Hrun. injection Hrun as <- _. reflexivity.
  - vm_compute in Hrun. discriminate Hrun.
  - vm_compute in Hrun. discriminate Hrun.
Defined.

Lemma completed_run_leaves_no_chunk_file_witness :
  ∃ report w',
    run_62_minutes = Ret report w'
    ∧ files w' = files world0.
Proof.
  unfold run_62_minutes.
  destruct (transcribe_long_audio _ _ _ _ _) as [report w'|e w'|] eqn:Hrun.
  - assert (Hin : "/audio/talk.mp3" ∈ files world0)
      by (vm_compute; reflexivity).
    destruct (completed_run_leaves_no_chunk_file
                (script (62 * 60 * 1000) (fun _ => "ACTIVE")
                        (fun n => inr (" text of " ++ n ++ " ")))
                minutes_25 5 "/audio/talk.mp3" world0 report w'
                (fun _ _ => eq_refl) Hin Hrun)
      as (chunks & w1 & Hsplit & Hfiles).
    + vm_compute in Hrun. injection Hrun as <- _. eexists. reflexivity.
    + exists report, w'. split; [reflexivity|].
      rewrite Hfiles. vm_compute in Hsplit. injection Hsplit as <- _.
      vm_compute. reflexivity.
  - vm_compute in Hrun. discriminate Hrun.
  - vm_compute in Hrun. discriminate Hrun.
Defined.

Lemma split_audio_payloads_written_witness :
  ∃ chunks w',
    split_audio (answering_service "text") minutes_25 5 "/audio/talk.mp3" world0
    = Ret chunks w'
    ∧ (∀ chunk, In chunk chunks → chunk.1.1 ∈ files w')
    ∧ files world0 ⊆ files w'.
Proof.
  destruct (split_audio (answering_service "text") minutes_25 5
                        "/audio/talk.mp3" world0) as [chunks w'|e w'|] eqn:Hsplit.
  - exists chunks, w'. split; [reflexivity|].
    assert (Hin : "/audio/talk.mp3" ∈ files world0)
      by (vm_compute; reflexivity).
    exact (split_audio_payloads_written _ _ _ _ _ _ _ Hin Hsplit).
  - vm_compute in Hsplit. discriminate Hsplit.
  - vm_compute in Hsplit. discriminate Hsplit.
Defined.


Lemma transcribe_chunk_builds_worker_result_witness :
  ∃ r w',
    transcribe_chunk (answering_service "  some text ") 3 first_chunk 0 3
                     world_split
    = Ret r w'
    ∧ worker_result first_chunk r.
Proof.
  destruct (transcribe_chunk (answering_service "  some text ") 3 first_chunk
                             0 3 world_split) as [r w'|e w'|] eqn:Hrun.
  - exists r, w'. split; [reflexivity|].
    exact (transcribe_chunk_builds_worker_result _ _ _ _ _ _ _ _ Hrun).
  - vm_compute in Hrun. discriminate Hrun.
  - vm_compute in Hrun. discriminate Hrun.
Defined.






Lemma transcribe_long_audio_reports_witness :
  (∃ e w',
      transcribe_long_audio narrow_console minutes_25 5 "/audio/talk.mp3"
                            world0
      = Raise e w'
      ∧ raised_before_try narrow_console world0 "/audio/talk.mp3" e w')
  ∧ (∃ report w', run_62_minutes = Ret report w' ∧ report_ok report).
Proof.
  split.
  - pose proof (transcribe_long_audio_reports narrow_console minutes_25 5
                  "/audio/talk.mp3" world0) as Hout.
    destruct (transcribe_long_audio narrow_console minutes_25 5
                "/audio/talk.mp3" world0) as [report w'|e w'|] eqn:Hrun.
    + vm_compute in Hrun. discriminate Hrun.
    + exists e, w'. split; [reflexivity|exact (proj1 Hout)].
    + vm_compute in Hrun. discriminate Hrun.
  - pose proof (transcribe_long_audio_reports
                  (script (62 * 60 * 1000) (fun _ => "ACTIVE")
                          (fun n => inr (" text of " ++ n ++ " ")))
                  minutes_25 5 "/audio/talk.mp3" world0) as Hout.
    unfold run_62_minutes.
    destruct (transcribe_long_audio _ _ _ _ _) as [report w'|e w'|] eqn:Hrun.
    + exists report, w'. split; [reflexivity|exact Hout].
    + vm_compute in Hrun. discriminate Hrun.
    + vm_compute in Hrun. discriminate Hrun.
Defined.
